(** * A gRPC wire codec: framing, content dispatch and header translation

    Shallow embedding of package [grpc] of micro-codec-grpc.  Two revisions of
    the codec file are covered, each in a module of its own:
    - [GrpcGo]  : [src/grpc.go], the revision that knows two protocol-buffer
                  families ([proto] and [oldproto]);
    - [Part000] : [src/unnamed/part_000], the revision with codec options and
                  the [flatten] field extraction.
    The frame functions [decode] and [encode] (second half of [src/grpc.go])
    are shared by both. *)

From Stdlib Require Import ZArith List Bool Ascii String DecimalString Lia.
From Stdlib.Strings Require Import Byte.
From stdpp Require Import base option list gmap strings.

Local Open Scope Z_scope.

(** ** Go values *)

(** A [[]byte]: [None] is the nil slice, [Some l] an allocated one.  Go code
    tells the two apart with [d == nil]; [len] does not. *)
Definition Bytes : Type := option (list byte).

Definition len (b : Bytes) : Z :=
  match b with
  | None => 0
  | Some l => Z.of_nat (length l)
  end.

Definition content (b : Bytes) : list byte :=
  match b with
  | None => []
  | Some l => l
  end.

(** [uint8(z)] and the widening of a byte to an integer. *)
Definition uint8 (z : Z) : byte :=
  match Byte.of_N (Z.to_N (z mod 256)) with
  | Some b => b
  | None => x00
  end.

Definition of_uint8 (b : byte) : Z := Z.of_N (Byte.to_N b).

(** [uint32(z)]: conversion by truncation. *)
Definition uint32 (z : Z) : Z := z mod 2 ^ 32.

(** Run-time panics of the Go runtime that the codec can raise. *)
Inductive panic : Type :=
| index_out_of_range (i : Z) (length : nat).

Inductive outcome (A : Type) : Type :=
| Ret (a : A)
| Panic (p : panic).
Arguments Ret {A} a.
Arguments Panic {A} p.

Definition bind {A B} (x : outcome A) (k : A -> outcome B) : outcome B :=
  match x with
  | Ret a => k a
  | Panic p => Panic p
  end.

Notation "x <- e ;; k" := (bind e (fun x => k))
  (at level 100, e at next level, right associativity, only parsing).

(** [l[i]] with its bounds check. *)
Definition index {A} (l : list A) (i : Z) : outcome A :=
  if i <? 0 then Panic (index_out_of_range i (length l))
  else match l !! Z.to_nat i with
       | Some x => Ret x
       | None => Panic (index_out_of_range i (length l))
       end.

(** ** Errors *)

(** Go error values.  [EOF] and [ErrUnexpectedEOF] are the two sentinels of
    package [io]; [errors_New] and [fmt_Errorf] are errors built by the codec;
    [foreign] stands for an error made outside this package (a stream, an
    encoder library, package [codec]). *)
Inductive error : Type :=
| EOF
| ErrUnexpectedEOF
| errors_New (text : string)
| fmt_Errorf (text : string)
| foreign (text : string).

#[global] Instance error_eq_dec : EqDecision error.
Proof. solve_decision. Defined.

(** The [Error()] method. *)
Definition Error_text (e : error) : string :=
  match e with
  | EOF => "EOF"
  | ErrUnexpectedEOF => "unexpected EOF"
  | errors_New t | fmt_Errorf t | foreign t => t
  end.

(** The [%d] verb of [fmt]. *)
Definition fmt_d (z : Z) : string := NilZero.string_of_int (Z.to_int z).

(** ** Package io *)

Module io.

(** [Read r n] is one [r.Read(p)] call with [len(p) = n]: the bytes the
    reader delivers, its error, and the reader afterwards. *)
Class Reader (R : Type) := Read : R -> nat -> list byte * option error * R.

(** [Write w p] is one [w.Write(p)] call: the count, the error and the writer
    afterwards. *)
Class Writer (W : Type) := Write : W -> list byte -> Z * option error * W.

(** [n, err := r.Read(p)]: at most [len(p)] bytes land at the front of [p],
    the rest of [p] keeps what it held. *)
Definition read {R} `{Reader R} (r : R) (p : list byte)
  : Z * list byte * option error * R :=
  let '(d, err, r') := Read r (length p) in
  let d := take (length p) d in
  (Z.of_nat (length d), d ++ drop (length d) p, err, r').

End io.

(** [bytes.Buffer]: reads take from the front, writes append at the back. *)
Record bytes_Buffer : Type := NewBuffer { unread : list byte }.

#[global] Instance bytes_Buffer_Reader : io.Reader bytes_Buffer := fun b n =>
  match unread b with
  | [] => if Nat.eqb n 0 then ([], None, b) else ([], Some EOF, b)
  | _ => (take n (unread b), None, NewBuffer (drop n (unread b)))
  end.

#[global] Instance bytes_Buffer_Writer : io.Writer bytes_Buffer := fun b p =>
  (Z.of_nat (length p), None, NewBuffer (unread b ++ p)).

(** A reader that plays back a fixed list of answers, one per [Read] call, and
    reports [EOF] once they are used up.  Any finite behaviour an [io.Reader]
    may show (short reads, errors, data together with an error) is such a
    list. *)
Record script_Reader : Type := Script { answers : list (list byte * option error) }.

#[global] Instance script_Reader_Reader : io.Reader script_Reader := fun r n =>
  match answers r with
  | [] => ([], Some EOF, r)
  | (d, err) :: rest => (d, err, Script rest)
  end.

(** A writer that refuses every write. *)
Record broken_Writer : Type := Broken { refusal : error }.

#[global] Instance broken_Writer_Writer : io.Writer broken_Writer := fun w p =>
  (0, Some (refusal w), w).

(** ** Package encoding/binary *)

Definition byte_at (b : list byte) (i : nat) : Z := of_uint8 (nth i b x00).

(** [binary.BigEndian.Uint32(b)] *)
Definition BigEndian_Uint32 (b : list byte) : Z :=
  Z.lor (Z.lor (Z.lor (byte_at b 3) (Z.shiftl (byte_at b 2) 8))
               (Z.shiftl (byte_at b 1) 16))
        (Z.shiftl (byte_at b 0) 24).

(** [binary.BigEndian.PutUint32(b, v)] *)
Definition BigEndian_PutUint32 (b : list byte) (v : Z) : list byte :=
  <[3%nat := uint8 v]>
    (<[2%nat := uint8 (Z.shiftr v 8)]>
       (<[1%nat := uint8 (Z.shiftr v 16)]>
          (<[0%nat := uint8 (Z.shiftr v 24)]> b))).

(** ** What the codec takes from outside [src/] *)

(** The encoder libraries, package [codec]'s constants and the host word size.
    None of them is defined under [src/]; the codec is verified for every
    choice of them. *)

(** [protojson.MarshalOptions] and [protojson.UnmarshalOptions], with the
    fields the codec sets. *)
Record MarshalOptions : Type := {
  UseEnumNumbers : bool;
  EmitUnpopulated : bool;
  UseProtoNames : bool;
  AllowPartial : bool
}.

Record UnmarshalOptions : Type := {
  DiscardUnknown : bool;
  UAllowPartial : bool
}.

(** [jsonpb.Marshaler] and [jsonpb.Unmarshaler] of the older family. *)
Record Marshaler : Type := { OrigName : bool; EmitDefaults : bool }.
Record Unmarshaler : Type := { AllowUnknownFields : bool }.

(** [codec.Frame] *)
Record Frame : Type := { Data : Bytes }.

(** A value passed as [interface{}]: the nil interface, a [*codec.Frame]
    (given by what it points to; the pointer itself is not nil), or a value of
    any other dynamic type. *)
Inductive iface (obj : Type) : Type :=
| nil_iface
| Frame_ptr (f : Frame)
| other (o : obj).
Arguments nil_iface {obj}.
Arguments Frame_ptr {obj} f.
Arguments other {obj} o.

Class Externals : Type := {
  (** dynamic values other than [*codec.Frame] *)
  obj : Type;
  (** does the value's method set satisfy [proto.Message] (newer family)? *)
  is_proto_Message : obj -> bool;
  (** does it satisfy [oldproto.Message] (older family)? *)
  is_oldproto_Message : obj -> bool;

  (** [strconv.IntSize]: the width of [int] and [uint] on the host *)
  IntSize : Z;
  (** [codec.DefaultMaxMsgSize] *)
  DefaultMaxMsgSize : Z;
  (** [codec.ErrInvalidMessage], [codec.ErrUnknownContentType] *)
  ErrInvalidMessage : error;
  ErrUnknownContentType : error;
  (** [metadata.HeaderService], [metadata.HeaderEndpoint] *)
  HeaderService : string;
  HeaderEndpoint : string;

  (** encoders return the bytes and the error; decoders return the target after
      the call and the error *)
  json_Marshal : iface obj -> Bytes * option error;
  json_Unmarshal : Bytes -> iface obj -> iface obj * option error;
  proto_Marshal : obj -> Bytes * option error;
  proto_Unmarshal : Bytes -> obj -> obj * option error;
  protojson_Marshal : MarshalOptions -> obj -> Bytes * option error;
  protojson_Unmarshal : UnmarshalOptions -> Bytes -> obj -> obj * option error;
  oldproto_Marshal : obj -> Bytes * option error;
  oldproto_Unmarshal : Bytes -> obj -> obj * option error;
  oldjsonpb_MarshalToString : Marshaler -> obj -> string * option error;
  oldjsonpb_Unmarshal : Unmarshaler -> list byte -> obj -> obj * option error;

  (** [rutil.StructFieldByTag(v, tag, value)]: the tagged field when there is
      one ([nerr == nil]).  The result aliases the field of [v]: what a decoder
      writes through it shows in [v], which [StructField_store] records. *)
  StructFieldByTag : iface obj -> string -> string -> option (iface obj);
  StructField_store : iface obj -> string -> string -> iface obj -> iface obj
}.

Abbreviation value := (iface obj).

(** ** Frame codec (src/grpc.go, second file) *)

Section frame.
Context `{E : Externals}.

(** Conversion to [int]: wrap-around at the host width, two's complement. *)
Definition int (z : Z) : Z :=
  (z + 2 ^ (IntSize - 1)) mod 2 ^ IntSize - 2 ^ (IntSize - 1).

(** Conversion to [uint]. *)
Definition uint (z : Z) : Z := z mod 2 ^ IntSize.

Definition int64 (z : Z) : Z := (z + 2 ^ 63) mod 2 ^ 64 - 2 ^ 63.

(** [^x] on a [uint] *)
Definition uint_not (x : Z) : Z := Z.lxor x (Z.ones IntSize).

Definition maxInt : Z := int (Z.shiftr (uint_not (uint 0)) 1).

Definition too_large_for_machine (length : Z) : error :=
  fmt_Errorf
    ("grpc: received message larger than max length allowed on current machine ("
       ++ fmt_d length ++ " vs. " ++ fmt_d maxInt ++ ")")%string.

Definition too_large (length : Z) : error :=
  fmt_Errorf
    ("grpc: received message larger than max ("
       ++ fmt_d length ++ " vs. " ++ fmt_d DefaultMaxMsgSize ++ ")")%string.

Definition decode {R} `{io.Reader R} (r : R) : byte * Bytes * option error * R :=
  let header := replicate 5 x00 in
  (* read the header *)
  let '(n, header, err, r) := io.read r header in
  match err with
  | Some err =>
      if bool_decide (err = EOF) && (n =? 0) then (x00, None, None, r)
      else (x00, None, Some err, r)
  | None =>
      (* get encoding format e.g compressed *)
      let cf := nth 0 header x00 in
      (* get message length *)
      let length := BigEndian_Uint32 (drop 1 header) in
      if length =? 0 then (cf, None, None, r)
      else if int64 length >? int64 maxInt then
        (cf, None, Some (too_large_for_machine length), r)
      else if int length >? DefaultMaxMsgSize then
        (cf, None, Some (too_large length), r)
      else
        let msg := replicate (Z.to_nat (int length)) x00 in
        let '(_, msg, err, r) := io.read r msg in
        match err with
        | Some err =>
            (cf, None,
             Some (if bool_decide (err = EOF) then ErrUnexpectedEOF else err), r)
        | None => (cf, Some msg, None, r)
        end
  end.

Definition encode {W} `{io.Writer W} (cf : byte) (buf : Bytes) (w : W)
  : option error * W :=
  let header := replicate 5 x00 in
  (* set compression *)
  let header := <[0%nat := cf]> header in
  (* write length as header *)
  let header :=
    take 1 header ++ BigEndian_PutUint32 (drop 1 header) (uint32 (len buf)) in
  let '(_, err, w) := io.Write w header in
  match err with
  | Some err => (Some err, w)
  | None =>
      (* write the buffer *)
      let '(_, err, w) := io.Write w (content buf) in
      (err, w)
  end.

End frame.

(** ** Package strings *)

(** [strings.Split(s, sep)] for a one-byte separator, which is what both call
    sites pass (["/"] and ["."]). *)
Fixpoint Split (s : string) (sep : ascii) : list string :=
  match s with
  | EmptyString => [EmptyString]
  | String a s' =>
      if Ascii.eqb a sep then EmptyString :: Split s' sep
      else match Split s' sep with
           | [] => [String a EmptyString]
           | h :: t => String a h :: t
           end
  end.

(** [strings.Join(elems, sep)] *)
Definition Join (elems : list string) (sep : string) : string :=
  String.concat sep elems.

(** ** Package codec: messages *)

Module codec.
(** [codec.MessageType] is an integer type; [Event] stands for every value
    that is none of the three kinds the codec switches on. *)
Inductive MessageType : Type := Error | Request | Response | Event.
End codec.

Module Message.
(** [codec.Message].  [Header] is an allocated map, as [codec.NewMessage]
    makes it; assigning into a nil map is not modelled. *)
Record t : Type := mk {
  Header : gmap string string;
  Type' : codec.MessageType;
  Target : string;
  Endpoint : string;
  Body : Bytes;
  Error : string
}.

(** [m.Header[k]]: the empty string when the key is absent. *)
Definition get (m : t) (k : string) : string := default EmptyString (Header m !! k).

(** [m.Header[k] = v] *)
Definition set (k v : string) (m : t) : t :=
  mk (<[k := v]> (Header m)) (Type' m) (Target m) (Endpoint m) (Body m) (Error m).

Definition set_Target (v : string) (m : t) : t :=
  mk (Header m) (Type' m) v (Endpoint m) (Body m) (Error m).

Definition set_Endpoint (v : string) (m : t) : t :=
  mk (Header m) (Type' m) (Target m) v (Body m) (Error m).

Definition set_Body (v : Bytes) (m : t) : t :=
  mk (Header m) (Type' m) (Target m) (Endpoint m) v (Error m).
End Message.

(** [len(path) == 0 || path[0] != '/'] *)
Definition no_leading_slash (path : string) : bool :=
  match path with
  | EmptyString => true
  | String a _ => negb (Ascii.eqb a "/")
  end.

(** [fmt.Sprintf("/%s.%s/%s", a, b, c)] *)
Definition Sprintf_path (a b c : string) : string :=
  ("/" ++ a ++ "." ++ b ++ "/" ++ c)%string.

(** The three content-type tokens. *)
Definition is_json (ct : string) : bool := String.eqb ct "application/grpc+json".
Definition is_binary (ct : string) : bool :=
  String.eqb ct "application/grpc+proto" || String.eqb ct "application/grpc".

(** ** The codec of src/grpc.go *)

Module GrpcGo.
Section codec.
Context `{E : Externals}.

Definition JsonpbMarshaler : MarshalOptions :=
  {| UseEnumNumbers := false; EmitUnpopulated := false;
     UseProtoNames := true; AllowPartial := false |}.

Definition JsonpbUnmarshaler : UnmarshalOptions :=
  {| DiscardUnknown := false; UAllowPartial := false |}.

Definition OldJsonpbMarshaler : Marshaler :=
  {| OrigName := true; EmitDefaults := false |}.

Definition OldJsonpbUnmarshaler : Unmarshaler :=
  {| AllowUnknownFields := false |}.

Record grpcCodec : Type := { ContentType : string }.

(** [if ct := m.Header["content-type"]; len(ct) > 0 { c.ContentType = ct }] *)
Definition refresh (c : grpcCodec) (m : Message.t) : grpcCodec :=
  let ct := Message.get m "content-type" in
  if 0 <? Z.of_nat (String.length ct) then {| ContentType := ct |} else c.

(** [conn] and [t] are not used by the body and are left out. *)
Definition ReadHeader (c : grpcCodec) (m : Message.t)
  : outcome (option error * Message.t * grpcCodec) :=
  let c := refresh c m in
  (* service method *)
  let path := Message.get m ":path" in
  if no_leading_slash path then
    let m := Message.set_Target (Message.get m "Micro-Service") m in
    let m := Message.set_Endpoint (Message.get m "Micro-Endpoint") m in
    Ret (None, m, c)
  else
    (* [ , a.package.Foo, Bar] *)
    let parts := Split path "/" in
    if negb (Nat.eqb (length parts) 3) then
      Ret (Some (errors_New "Unknown request path"), m, c)
    else
      p1 <- index parts 1 ;;
      let service := Split p1 "." in
      s_last <- index service (Z.of_nat (length service) - 1) ;;
      p2 <- index parts 2 ;;
      let m := Message.set_Endpoint (Join [s_last; p2] ".") m in
      let m :=
        Message.set_Target
          (Join (take (Z.to_nat (Z.of_nat (length service) - 1)) service) ".") m in
      Ret (None, m, c).

Definition lift (r : obj * option error) : value * option error :=
  (other (fst r), snd r).

(** The type switch of [Unmarshal] tries its cases in the order [nil],
    [*codec.Frame], [oldproto.Message], [proto.Message]; [default] is taken
    when none applies, wherever it is written. *)
Definition Unmarshal (c : grpcCodec) (d : Bytes) (b : value)
  : value * option error :=
  match d with
  | None => (b, None)
  | Some _ =>
      match b with
      | nil_iface => (b, None)
      | Frame_ptr v =>
          (* v.Data = d, then out of the switch *)
          (Frame_ptr {| Data := d |}, Some ErrInvalidMessage)
      | other v =>
          if is_oldproto_Message v then
            if is_json (ContentType c) then
              lift (oldjsonpb_Unmarshal OldJsonpbUnmarshaler (content d) v)
            else if is_binary (ContentType c) then
              lift (oldproto_Unmarshal d v)
            else (b, Some ErrInvalidMessage)
          else if is_proto_Message v then
            if is_json (ContentType c) then
              lift (protojson_Unmarshal JsonpbUnmarshaler d v)
            else if is_binary (ContentType c) then
              lift (proto_Unmarshal d v)
            else (b, Some ErrInvalidMessage)
          else
            if is_json (ContentType c) then json_Unmarshal d b
            else (b, Some ErrInvalidMessage)
      end
  end.

(** [[]byte(str)] *)
Definition bytes_of_string (str : string) : Bytes := Some (list_byte_of_string str).

(** The type switch of [Marshal]: [nil], [*codec.Frame], [proto.Message],
    [oldproto.Message], [default]. *)
Definition Marshal (c : grpcCodec) (b : value) : Bytes * option error :=
  match b with
  | nil_iface => (None, None)
  | Frame_ptr m => (Data m, None)
  | other m =>
      if is_proto_Message m then
        if is_json (ContentType c) then protojson_Marshal JsonpbMarshaler m
        else if is_binary (ContentType c) then proto_Marshal m
        else (None, Some ErrUnknownContentType)
      else if is_oldproto_Message m then
        if is_json (ContentType c) then
          let '(str, err) := oldjsonpb_MarshalToString OldJsonpbMarshaler m in
          (bytes_of_string str, err)
        else if is_binary (ContentType c) then oldproto_Marshal m
        else (None, Some ErrUnknownContentType)
      else
        if is_json (ContentType c) then json_Marshal b
        else (None, Some ErrUnknownContentType)
  end.

(** The type switch of [ReadBody]: [*codec.Frame], [oldproto.Message],
    [proto.Message], [default]. *)
Definition ReadBody {R} `{io.Reader R} (c : grpcCodec) (conn : R) (b : value)
  : value * option error * R :=
  match b with
  | nil_iface => (b, None, conn)     (* no body *)
  | _ =>
      let '(_, buf, err, conn) := decode conn in
      match err with
      | Some err => (b, Some err, conn)
      | None =>
          match b with
          | Frame_ptr v =>
              (Frame_ptr {| Data := buf |}, Some ErrUnknownContentType, conn)
          | other v =>
              if is_oldproto_Message v then
                if is_json (ContentType c) then
                  (lift (oldjsonpb_Unmarshal OldJsonpbUnmarshaler (content buf) v), conn)
                else if is_binary (ContentType c) then
                  (lift (oldproto_Unmarshal buf v), conn)
                else (b, Some ErrUnknownContentType, conn)
              else if is_proto_Message v then
                if is_json (ContentType c) then
                  (lift (protojson_Unmarshal JsonpbUnmarshaler buf v), conn)
                else if is_binary (ContentType c) then
                  (lift (proto_Unmarshal buf v), conn)
                else (b, Some ErrUnknownContentType, conn)
              else
                if is_json (ContentType c) then (json_Unmarshal buf b, conn)
                else (b, Some ErrUnknownContentType, conn)
          | nil_iface =>
              if is_json (ContentType c) then (json_Unmarshal buf b, conn)
              else (b, Some ErrUnknownContentType, conn)
          end
      end
  end.

(** The switch on the body inside [Write]: [*codec.Frame], [proto.Message],
    [oldproto.Message], [default] (which also takes the nil interface). *)
Definition Write_body (c : grpcCodec) (b : value) : Bytes * option error :=
  match b with
  | Frame_ptr m => (Data m, None)
  | other m =>
      if is_proto_Message m then
        if is_json (ContentType c) then protojson_Marshal JsonpbMarshaler m
        else if is_binary (ContentType c) then proto_Marshal m
        else (None, Some ErrUnknownContentType)
      else if is_oldproto_Message m then
        if is_json (ContentType c) then
          let '(str, err) := oldjsonpb_MarshalToString OldJsonpbMarshaler m in
          (bytes_of_string str, err)
        else if is_binary (ContentType c) then oldproto_Marshal m
        else (None, Some ErrUnknownContentType)
      else
        if is_json (ContentType c) then json_Marshal b
        else (None, Some ErrUnknownContentType)
  | nil_iface =>
      if is_json (ContentType c) then json_Marshal b
      else (None, Some ErrUnknownContentType)
  end.

(** The headers [Write] sets for each kind.  [inl m] leaves the switch and
    goes on to the body; [inr m] is the [return nil] of the [Error] case. *)
Definition Write_header (c : grpcCodec) (m : Message.t)
  : outcome (Message.t + Message.t) :=
  match Message.Type' m with
  | codec.Request =>
      let parts := Split (Message.Endpoint m) "." in
      let m := Message.set ":method" "POST" m in
      p0 <- index parts 0 ;;
      p1 <- index parts 1 ;;
      let m := Message.set ":path" (Sprintf_path (Message.Target m) p0 p1) m in
      let m := Message.set ":proto" "HTTP/2.0" m in
      let m := Message.set "te" "trailers" m in
      let m := Message.set "user-agent" "grpc-go/1.0.0" m in
      let m := Message.set ":authority" (Message.Target m) m in
      let m := Message.set "content-type" (ContentType c) m in
      Ret (inl m)
  | codec.Response =>
      let m := Message.set "Trailer" "grpc-status" m in
      let m := Message.set "content-type" (ContentType c) m in
      let m := Message.set ":status" "200" m in
      let m := Message.set "grpc-status" "0" m in
      Ret (inl m)
  | codec.Error =>
      let m := Message.set "Trailer" "grpc-status, grpc-message" m in
      (* micro end of stream *)
      if String.eqb (Message.Error m) "EOS" then
        Ret (inr (Message.set "grpc-status" "0" m))
      else
        let m := Message.set "grpc-message" (Message.Error m) m in
        Ret (inr (Message.set "grpc-status" "13" m))
  | codec.Event => Ret (inl m)
  end.

Definition Write {W} `{io.Writer W} (c : grpcCodec) (conn : W) (m : Message.t)
    (b : value) : outcome (option error * Message.t * grpcCodec * W) :=
  let c := refresh c m in
  r <- Write_header c m ;;
  match r with
  | inr m => Ret (None, m, c, conn)
  | inl m =>
      let '(buf, err) := Write_body c b in
      (* check error *)
      match err with
      | Some err =>
          let m := Message.set "grpc-status" "8" m in
          let m := Message.set "grpc-message" (Error_text err) m in
          Ret (Some err, m, c, conn)
      | None =>
          if len buf =? 0 then Ret (None, m, c, conn)
          else
            let '(err, conn) := encode x00 buf conn in
            Ret (err, m, c, conn)
      end
  end.

(** [func (c *grpcCodec) String() string] *)
Definition String (c : grpcCodec) : string := "grpc".

(** [func NewCodec() codec.Codec] *)
Definition NewCodec : grpcCodec := {| ContentType := "application/grpc" |}.

End codec.
End GrpcGo.

(** ** The codec of src/unnamed/part_000 *)

Module Part000.
Section codec.
Context `{E : Externals}.

Definition DefaultMarshalOptions : MarshalOptions :=
  {| UseEnumNumbers := false; EmitUnpopulated := false;
     UseProtoNames := true; AllowPartial := false |}.

Definition DefaultUnmarshalOptions : UnmarshalOptions :=
  {| DiscardUnknown := false; UAllowPartial := false |}.

Definition flattenTag : string := "flatten".

(** What the codec reads of a [context.Context]: the values stored under
    [marshalOptionsKey{}] and [unmarshalOptionsKey{}], when they have the
    asserted type. *)
Record context : Type := {
  marshalOptions_value : option MarshalOptions;
  unmarshalOptions_value : option UnmarshalOptions
}.

(** The fields of [codec.Options] the codec reads; [Context] may be nil. *)
Record Options : Type := { TagName : string; Context : option context }.

(** [codec.Option] *)
Definition Option : Type := Options -> Options.

Record grpcCodec : Type := { opts : Options; ContentType : string }.

Definition refresh (c : grpcCodec) (m : Message.t) : grpcCodec :=
  let ct := Message.get m "content-type" in
  if 0 <? Z.of_nat (String.length ct) then {| opts := opts c; ContentType := ct |}
  else c.

(** [options := c.opts; for _, o := range opts { o(&options) }] *)
Definition apply_opts (c : grpcCodec) (os : list Option) : Options :=
  fold_left (fun options o => o options) os (opts c).

(** [conn] and [t] are not used by the body and are left out. *)
Definition ReadHeader (c : grpcCodec) (m : Message.t)
  : outcome (option error * Message.t * grpcCodec) :=
  let c := refresh c m in
  (* service method *)
  let path := Message.get m ":path" in
  if no_leading_slash path then
    let m := Message.set_Target (Message.get m HeaderService) m in
    let m := Message.set_Endpoint (Message.get m HeaderEndpoint) m in
    Ret (None, m, c)
  else
    (* [ , a.package.Foo, Bar] *)
    let parts := Split path "/" in
    if negb (Nat.eqb (length parts) 3) then
      Ret (Some (errors_New "Unknown request path"), m, c)
    else
      p1 <- index parts 1 ;;
      let service := Split p1 "." in
      s_last <- index service (Z.of_nat (length service) - 1) ;;
      p2 <- index parts 2 ;;
      let m := Message.set_Endpoint (Join [s_last; p2] ".") m in
      let m :=
        Message.set_Target
          (Join (take (Z.to_nat (Z.of_nat (length service) - 1)) service) ".") m in
      Ret (None, m, c).

Definition is_nil (v : value) : bool :=
  match v with nil_iface => true | _ => false end.

(** The first component is the target as the caller sees it after the call. *)
Definition Unmarshal (c : grpcCodec) (d : Bytes) (v : value) (os : list Option)
  : value * option error :=
  if is_nil v || (len d =? 0) then (v, None)
  else
    let options := apply_opts c os in
    let target := v in
    (* v = nv when the flatten field is found; writes through nv reach it *)
    let '(v, store) :=
      match StructFieldByTag v (TagName options) flattenTag with
      | Some nv => (nv, StructField_store target (TagName options) flattenTag)
      | None => (v, fun x => x)
      end in
    match v with
    | Frame_ptr m => (store (Frame_ptr {| Data := d |}), None)
    | _ =>
        if is_json (ContentType c) then
          let '(v, err) := json_Unmarshal d v in (store v, err)
        else
          match v with
          | other pm =>
              if is_proto_Message pm then
                let unmarshalOptions :=
                  match Context options with
                  | Some ctx =>
                      match unmarshalOptions_value ctx with
                      | Some f => f
                      | None => DefaultUnmarshalOptions
                      end
                  | None => DefaultUnmarshalOptions
                  end in
                if is_json (ContentType c) then
                  let '(pm, err) := protojson_Unmarshal unmarshalOptions d pm in
                  (store (other pm), err)
                else if is_binary (ContentType c) then
                  let '(pm, err) := proto_Unmarshal d pm in
                  (store (other pm), err)
                else (target, Some ErrInvalidMessage)
              else (target, Some ErrInvalidMessage)
          | _ => (target, Some ErrInvalidMessage)
          end
    end.

Definition Marshal (c : grpcCodec) (v : value) (os : list Option)
  : Bytes * option error :=
  if is_nil v then (None, None)
  else
    let options := apply_opts c os in
    let v :=
      match StructFieldByTag v (TagName options) flattenTag with
      | Some nv => nv
      | None => v
      end in
    match v with
    | Frame_ptr m => (Data m, None)
    | _ =>
        if is_json (ContentType c) then json_Marshal v
        else
          match v with
          | other pm =>
              if is_proto_Message pm then
                let marshalOptions :=
                  match Context options with
                  | Some ctx =>
                      match marshalOptions_value ctx with
                      | Some f => f
                      | None => DefaultMarshalOptions
                      end
                  | None => DefaultMarshalOptions
                  end in
                if is_json (ContentType c) then protojson_Marshal marshalOptions pm
                else if is_binary (ContentType c) then proto_Marshal pm
                else (None, Some ErrUnknownContentType)
              else (None, Some ErrInvalidMessage)
          | _ => (None, Some ErrInvalidMessage)
          end
    end.

Definition ReadBody {R} `{io.Reader R} (c : grpcCodec) (conn : R) (v : value)
  : value * option error * R :=
  (* no body *)
  if is_nil v then (v, None, conn)
  else
    let '(n, buf, err, conn) := decode conn in
    match err with
    | Some err => (v, Some err, conn)
    | None =>
        if of_uint8 n =? 0 then (v, None, conn)
        else (Unmarshal c buf v [], conn)
    end.

(** The headers [Write] sets for each kind.  [inl m] leaves the switch and
    goes on to the body; [inr m] is the [return nil] of the [Error] case. *)
Definition Write_header (c : grpcCodec) (m : Message.t)
  : outcome (Message.t + Message.t) :=
  match Message.Type' m with
  | codec.Request =>
      let parts := Split (Message.Endpoint m) "." in
      let m := Message.set ":method" "POST" m in
      p0 <- index parts 0 ;;
      p1 <- index parts 1 ;;
      let m := Message.set ":path" (Sprintf_path (Message.Target m) p0 p1) m in
      let m := Message.set ":proto" "HTTP/2.0" m in
      let m := Message.set "te" "trailers" m in
      let m := Message.set "user-agent" "grpc-go/1.0.0" m in
      let m := Message.set ":authority" (Message.Target m) m in
      let m := Message.set "content-type" (ContentType c) m in
      Ret (inl m)
  | codec.Response =>
      let m := Message.set "Trailer" "grpc-status" m in
      let m := Message.set "content-type" (ContentType c) m in
      let m := Message.set ":status" "200" m in
      let m := Message.set "grpc-status" "0" m in
      Ret (inl m)
  | codec.Error =>
      let m := Message.set "Trailer" "grpc-status, grpc-message" m in
      (* micro end of stream *)
      if String.eqb (Message.Error m) "EOS" then
        Ret (inr (Message.set "grpc-status" "0" m))
      else
        let m := Message.set "grpc-message" (Message.Error m) m in
        Ret (inr (Message.set "grpc-status" "13" m))
  | codec.Event => Ret (inl m)
  end.

Definition Write {W} `{io.Writer W} (c : grpcCodec) (conn : W) (m : Message.t)
    (v : value) : outcome (option error * Message.t * grpcCodec * W) :=
  let c := refresh c m in
  r <- Write_header c m ;;
  match r with
  | inr m => Ret (None, m, c, conn)
  | inl m =>
      let '(buf, err) := Marshal c v [] in
      match err with
      | Some err =>
          let m := Message.set "grpc-status" "8" m in
          let m := Message.set "grpc-message" (Error_text err) m in
          Ret (Some err, m, c, conn)
      | None =>
          if len buf =? 0 then Ret (None, m, c, conn)
          else
            let m := Message.set_Body buf m in
            let '(err, conn) := encode x00 buf conn in
            Ret (err, m, c, conn)
      end
  end.

(** [func (c *grpcCodec) String() string] *)
Definition String (c : grpcCodec) : string := "grpc".

(** [func NewCodec(opts ...codec.Option) codec.Codec].  [codec.NewOptions] is
    not under [src/]; it is passed in as [NewOptions]. *)
Definition NewCodec (NewOptions : list Option -> Options) (os : list Option)
  : grpcCodec :=
  {| opts := NewOptions os; ContentType := "application/grpc" |}.

End codec.
End Part000.

(** ** A stand-in for the outside world *)

(** One concrete choice of the externals, used to run the codec on examples:
    a 64-bit host (or a 32-bit one), the 4 MiB message ceiling, and encoders
    over a toy value
    type (a byte list tagged with the two capability flags) that copy bytes
    and refuse the empty list. *)
Module Toy.

Record toy : Type := { newer : bool; older : bool; bytes : list byte }.

Definition enc (o : toy) : Bytes * option error :=
  match bytes o with
  | [] => (None, Some (foreign "empty value"))
  | l => (Some l, None)
  end.

Definition dec (d : Bytes) (o : toy) : toy * option error :=
  ({| newer := newer o; older := older o; bytes := content d |}, None).

Definition externals_on (word : Z) : Externals := {|
  obj := toy;
  is_proto_Message := newer;
  is_oldproto_Message := older;
  IntSize := word;
  DefaultMaxMsgSize := 4194304;
  ErrInvalidMessage := foreign "invalid message";
  ErrUnknownContentType := foreign "unknown content-type";
  HeaderService := "Micro-Service";
  HeaderEndpoint := "Micro-Endpoint";
  json_Marshal := fun v =>
    match v with other o => enc o | _ => (Some [x6e; x75; x6c; x6c], None) end;
  json_Unmarshal := fun d v =>
    match v with other o => (other (fst (dec d o)), None) | _ => (v, None) end;
  proto_Marshal := enc;
  proto_Unmarshal := dec;
  protojson_Marshal := fun _ => enc;
  protojson_Unmarshal := fun _ => dec;
  oldproto_Marshal := enc;
  oldproto_Unmarshal := fun d o =>
    ({| newer := newer o; older := older o; bytes := x4f :: content d |}, None);
  oldjsonpb_MarshalToString := fun _ o => (string_of_list_byte (bytes o), None);
  oldjsonpb_Unmarshal := fun _ l o =>
    ({| newer := newer o; older := older o; bytes := x4f :: l |}, None);
  StructFieldByTag := fun _ _ _ => None;
  StructField_store := fun v _ _ _ => v
|}.

Definition externals : Externals := externals_on 64.

Definition codec_v1 : GrpcGo.grpcCodec :=
  {| GrpcGo.ContentType := "application/grpc+proto" |}.

Definition codec_v2 : Part000.grpcCodec :=
  {| Part000.opts := {| Part000.TagName := "codec"; Part000.Context := None |};
     Part000.ContentType := "application/grpc+proto" |}.

Definition message (k : codec.MessageType) (endpoint err : string) : Message.t :=
  Message.mk ∅ k "a.b" endpoint None err.

(** A value of both families, and one the stand-in encoders refuse. *)
Definition both : @obj externals := {| newer := true; older := true; bytes := [x41] |}.
Definition hollow : @obj externals := {| newer := true; older := false; bytes := [] |}.

End Toy.

(** ** Notions used to state the properties *)

(** The host is a 32-bit or a 64-bit machine. *)
Definition host_word `{E : Externals} : Prop := IntSize = 32 \/ IntSize = 64.

(** How many times the byte [sep] occurs in [s]. *)
Fixpoint count_byte (sep : ascii) (s : string) : nat :=
  match s with
  | EmptyString => 0
  | String a s' => (if Ascii.eqb a sep then 1 else 0) + count_byte sep s'
  end.

(** What [ReadHeader] answers for a [:path] header [path] that starts with
    ['/']: the parse error exactly when [path] does not split into three
    segments, and otherwise the endpoint and target taken from the segments. *)
Definition path_result {C} (res : outcome (option error * Message.t * C))
    (path : string) : Prop :=
  ((exists m' c', res = Ret (Some (errors_New "Unknown request path"), m', c'))
     <-> length (Split path "/") <> 3%nat)
  /\ (forall p0 p1 p2, Split path "/" = [p0; p1; p2] ->
        exists m' c', res = Ret (None, m', c')
          /\ Message.Endpoint m' = Join [List.last (Split p1 ".") EmptyString; p2] "."
          /\ Message.Target m' = Join (removelast (Split p1 ".")) ".").

(** What [Write] leaves in the headers of a message of kind [Error]. *)
Definition Error_headers (m m' : Message.t) : Prop :=
  (Message.Error m = "EOS"%string ->
     Message.Header m' !! "grpc-status" = Some "0"%string
     /\ Message.Header m' !! "grpc-message" = Message.Header m !! "grpc-message")
  /\ (Message.Error m <> "EOS"%string ->
        Message.Header m' !! "grpc-message" = Some (Message.Error m)
        /\ Message.Header m' !! "grpc-status" = Some "13"%string).

(** What [Write] leaves in the headers when encoding the body failed with [e]. *)
Definition failure_headers (e : error) (m' : Message.t) : Prop :=
  Message.Header m' !! "grpc-status" = Some "8"%string
  /\ Message.Header m' !! "grpc-message" = Some (Error_text e).

(** The headers [Write] leaves on a message of kind [Request] whose Endpoint
    starts with the two components [p0] and [p1]; [ct] is the content type of
    the codec after the call. *)
Definition request_headers (m : Message.t) (ct p0 p1 : string) (m' : Message.t)
  : Prop :=
  Message.Header m' !! ":method" = Some "POST"%string
  /\ Message.Header m' !! ":path"
     = Some ("/" ++ Message.Target m ++ "." ++ p0 ++ "/" ++ p1)%string
  /\ Message.Header m' !! ":proto" = Some "HTTP/2.0"%string
  /\ Message.Header m' !! "te" = Some "trailers"%string
  /\ Message.Header m' !! "user-agent" = Some "grpc-go/1.0.0"%string
  /\ Message.Header m' !! ":authority" = Some (Message.Target m)
  /\ Message.Header m' !! "content-type" = Some ct
  /\ Message.Target m' = Message.Target m
  /\ Message.Endpoint m' = Message.Endpoint m.

(** The headers [Write] leaves on a message of kind [Response]. *)
Definition response_headers (ct : string) (m' : Message.t) : Prop :=
  Message.Header m' !! "Trailer" = Some "grpc-status"%string
  /\ Message.Header m' !! "content-type" = Some ct
  /\ Message.Header m' !! ":status" = Some "200"%string.

(** What [ReadHeader] never touches. *)
Definition same_payload (m m' : Message.t) : Prop :=
  Message.Header m' = Message.Header m
  /\ Message.Type' m' = Message.Type' m
  /\ Message.Body m' = Message.Body m
  /\ Message.Error m' = Message.Error m.

(** * Properties *)

(** ** Facts about bytes and the big-endian length field *)

Lemma of_uint8_range (b : byte) : 0 <= of_uint8 b < 256.
Proof.
  unfold of_uint8. pose proof (Byte.to_N_bounded b) as Hb.
  split; [apply N2Z.is_nonneg|]. lia.
Qed.

Lemma of_uint8_uint8 (z : Z) : of_uint8 (uint8 z) = z mod 256.
Proof.
  unfold of_uint8, uint8.
  assert (Hr : 0 <= z mod 256 < 256) by (apply Z.mod_pos_bound; lia).
  destruct (Byte.of_N (Z.to_N (z mod 256))) as [b|] eqn:Hb.
  - apply Byte.to_of_N in Hb. rewrite Hb. lia.
  - apply Byte.of_N_None_iff in Hb. lia.
Qed.

Lemma uint8_of_uint8 (b : byte) : uint8 (of_uint8 b) = b.
Proof.
  unfold uint8, of_uint8.
  pose proof (of_uint8_range b) as Hr. unfold of_uint8 in Hr.
  rewrite Z.mod_small by lia. rewrite N2Z.id, Byte.of_to_N. reflexivity.
Qed.

Lemma lor_below (a b n : Z) :
  0 <= n -> 0 <= a < 2 ^ n -> 0 <= b < 2 ^ n -> 0 <= Z.lor a b < 2 ^ n.
Proof.
  intros Hn Ha Hb. split; [apply Z.lor_nonneg; lia|].
  destruct (Z.eq_dec (Z.lor a b) 0) as [->|Hne]; [lia|].
  assert (0 < Z.lor a b) by (pose proof (proj2 (Z.lor_nonneg a b)); lia).
  apply Z.log2_lt_pow2; [lia|].
  rewrite Z.log2_lor by lia.
  destruct (Z.eq_dec a 0) as [->|]; destruct (Z.eq_dec b 0) as [->|].
  - rewrite Z.lor_0_l in Hne. lia.
  - rewrite Z.max_r by (apply Z.log2_nonneg). apply Z.log2_lt_pow2; lia.
  - rewrite Z.max_l by (apply Z.log2_nonneg). apply Z.log2_lt_pow2; lia.
  - apply Z.max_lub_lt; apply Z.log2_lt_pow2; lia.
Qed.

Lemma BigEndian_Uint32_range (b : list byte) : 0 <= BigEndian_Uint32 b < 2 ^ 32.
Proof.
  unfold BigEndian_Uint32, byte_at.
  pose proof (of_uint8_range (nth 0 b x00)).
  pose proof (of_uint8_range (nth 1 b x00)).
  pose proof (of_uint8_range (nth 2 b x00)).
  pose proof (of_uint8_range (nth 3 b x00)).
  rewrite !Z.shiftl_mul_pow2 by lia.
  repeat apply lor_below; lia.
Qed.

Lemma Uint32_bytes (v : Z) :
  0 <= v < 2 ^ 32 ->
  Z.lor (Z.lor (Z.lor (v mod 256) (Z.shiftl (Z.shiftr v 8 mod 256) 8))
               (Z.shiftl (Z.shiftr v 16 mod 256) 16))
        (Z.shiftl (Z.shiftr v 24 mod 256) 24) = v.
Proof.
  intros Hv. apply Z.bits_inj'. intros n Hn.
  rewrite !Z.lor_spec, !Z.shiftl_spec by lia.
  change 256 with (2 ^ 8).
  destruct (Z.lt_ge_cases n 8); [|destruct (Z.lt_ge_cases n 16);
     [|destruct (Z.lt_ge_cases n 24); [|destruct (Z.lt_ge_cases n 32)]]].
  - rewrite Z.mod_pow2_bits_low by lia.
    rewrite !(Z.testbit_neg_r _ (n - _)) by lia. rewrite !orb_false_r. reflexivity.
  - rewrite (Z.mod_pow2_bits_high v) by lia.
    rewrite (Z.mod_pow2_bits_low _ _ (n - 8)) by lia.
    rewrite (Z.testbit_neg_r _ (n - 16)), (Z.testbit_neg_r _ (n - 24)) by lia.
    rewrite Z.shiftr_spec by lia. simpl. rewrite !orb_false_r. f_equal. lia.
  - rewrite (Z.mod_pow2_bits_high v) by lia.
    rewrite (Z.mod_pow2_bits_high _ _ (n - 8)) by lia.
    rewrite (Z.mod_pow2_bits_low _ _ (n - 16)) by lia.
    rewrite (Z.testbit_neg_r _ (n - 24)) by lia.
    rewrite Z.shiftr_spec by lia. simpl. rewrite !orb_false_r. f_equal. lia.
  - rewrite (Z.mod_pow2_bits_high v) by lia.
    rewrite (Z.mod_pow2_bits_high _ _ (n - 8)) by lia.
    rewrite (Z.mod_pow2_bits_high _ _ (n - 16)) by lia.
    rewrite (Z.mod_pow2_bits_low _ _ (n - 24)) by lia.
    rewrite Z.shiftr_spec by lia. simpl. f_equal. lia.
  - rewrite (Z.mod_pow2_bits_high v) by lia.
    rewrite (Z.mod_pow2_bits_high _ _ (n - 8)) by lia.
    rewrite (Z.mod_pow2_bits_high _ _ (n - 16)) by lia.
    rewrite (Z.mod_pow2_bits_high _ _ (n - 24)) by lia.
    simpl. symmetry.
    apply Z.bits_above_log2; [lia|].
    destruct (Z.eq_dec v 0) as [->|]; [simpl; lia|].
    assert (Z.log2 v < 32) by (apply Z.log2_lt_pow2; lia). lia.
Qed.

Lemma Uint32_PutUint32 (b : list byte) (v : Z) :
  length b = 4%nat -> 0 <= v < 2 ^ 32 ->
  BigEndian_Uint32 (BigEndian_PutUint32 b v) = v.
Proof.
  intros Hb Hv.
  destruct b as [|b0 [|b1 [|b2 [|b3 [|]]]]]; try discriminate.
  unfold BigEndian_Uint32, BigEndian_PutUint32, byte_at. simpl.
  rewrite !of_uint8_uint8. apply Uint32_bytes, Hv.
Qed.

Section frame_facts.
Context `{E : Externals}.

Lemma maxInt_value : host_word -> maxInt = 2 ^ (IntSize - 1) - 1.
Proof.
  unfold maxInt, int, uint_not, uint. intros [-> | ->]; reflexivity.
Qed.

Lemma maxInt_bounds : host_word -> 2 ^ 31 - 1 <= maxInt < 2 ^ 63.
Proof.
  intros Hw. rewrite (maxInt_value Hw). destruct Hw as [-> | ->]; simpl; lia.
Qed.

Lemma int_small (z : Z) : host_word -> 0 <= z <= maxInt -> int z = z.
Proof.
  intros Hw. rewrite (maxInt_value Hw). unfold int.
  destruct Hw as [-> | ->]; simpl; intros Hz;
    rewrite Z.mod_small by lia; lia.
Qed.

Lemma int64_small (z : Z) : - 2 ^ 63 <= z < 2 ^ 63 -> int64 z = z.
Proof. intros Hz. unfold int64. rewrite Z.mod_small by lia. lia. Qed.

Lemma read_bytes_Buffer (l rest p : list byte) :
  length p = length l -> l <> [] ->
  io.read (NewBuffer (l ++ rest)) p
  = (Z.of_nat (length l), l, None, NewBuffer rest).
Proof.
  intros Hp Hl. unfold io.read, io.Read, bytes_Buffer_Reader. simpl unread.
  destruct (l ++ rest) as [|a t] eqn:Heq.
  { destruct l; [congruence | discriminate]. }
  rewrite <- Heq, Hp. rewrite take_app_length, drop_app_length.
  rewrite firstn_all. rewrite <- Hp, drop_all, app_nil_r. reflexivity.
Qed.

Lemma encode_bytes_Buffer (cf : byte) (buf : Bytes) (pre : list byte) :
  encode cf buf (NewBuffer pre)
  = (None,
     NewBuffer ((pre ++ cf :: BigEndian_PutUint32 (replicate 4 x00) (uint32 (len buf)))
                  ++ content buf)).
Proof. reflexivity. Qed.

Lemma PutUint32_length (b : list byte) (v : Z) :
  length (BigEndian_PutUint32 b v) = length b.
Proof. unfold BigEndian_PutUint32. rewrite !length_insert. reflexivity. Qed.

Lemma decode_frame (cf : byte) (payload rest : list byte) :
  host_word ->
  Z.of_nat (length payload) <= DefaultMaxMsgSize ->
  Z.of_nat (length payload) <= maxInt ->
  Z.of_nat (length payload) < 2 ^ 32 ->
  decode (NewBuffer
            ((cf :: BigEndian_PutUint32 (replicate 4 x00) (Z.of_nat (length payload)))
               ++ payload ++ rest))
  = (cf, match payload with [] => None | _ => Some payload end, None, NewBuffer rest).
Proof.
  intros Hw Hmax Hint H32. unfold decode.
  rewrite read_bytes_Buffer;
    [| rewrite length_replicate; cbn [length];
       rewrite PutUint32_length, length_replicate; reflexivity | discriminate].
  cbn [nth]. rewrite !skipn_cons, !skipn_O.
  rewrite Uint32_PutUint32 by (simpl; lia || reflexivity).
  pose proof (maxInt_bounds Hw) as Hb.
  destruct payload as [|b0 payload'] eqn:Hpl.
  { reflexivity. }
  rewrite <- Hpl in *. assert (Hlen : 0 < Z.of_nat (length payload)) by (subst; simpl; lia).
  destruct (Z.eqb_spec (Z.of_nat (length payload)) 0) as [|_]; [lia|].
  rewrite !int64_small by lia.
  destruct (Z.gtb_spec (Z.of_nat (length payload)) maxInt) as [|_]; [lia|].
  rewrite int_small by (auto; lia).
  destruct (Z.gtb_spec (Z.of_nat (length payload)) DefaultMaxMsgSize) as [|_]; [lia|].
  rewrite Nat2Z.id.
  rewrite read_bytes_Buffer;
    [| rewrite length_replicate; reflexivity | subst; discriminate].
  subst. reflexivity.
Qed.

End frame_facts.

(** ** Facts about strings and indexing *)

Lemma Split_length (s : string) (sep : ascii) :
  length (Split s sep) = S (count_byte sep s).
Proof.
  induction s as [|a s IH]; [reflexivity|]. simpl.
  destruct (Ascii.eqb a sep); simpl; [congruence|].
  destruct (Split s sep); simpl in *; congruence.
Qed.

Lemma Split_absent (s : string) (sep : ascii) :
  count_byte sep s = 0%nat -> Split s sep = [s].
Proof.
  induction s as [|a s IH]; [reflexivity|]. simpl.
  destruct (Ascii.eqb a sep); [discriminate|]. simpl. intros H.
  rewrite (IH H). reflexivity.
Qed.

Lemma Split_app (s t : string) (sep : ascii) :
  Split (s ++ String sep t) sep = Split s sep ++ Split t sep.
Proof.
  induction s as [|a s IH]; simpl.
  - rewrite Ascii.eqb_refl. reflexivity.
  - destruct (Ascii.eqb a sep); [rewrite IH; reflexivity|].
    rewrite IH. pose proof (Split_length s sep) as Hl.
    destruct (Split s sep); [discriminate|]. reflexivity.
Qed.

Lemma Join_Split (s : string) (sep : ascii) :
  Join (Split s sep) (String sep EmptyString) = s.
Proof.
  unfold Join. induction s as [|a s IH]; [reflexivity|]. simpl.
  pose proof (Split_length s sep) as Hl.
  destruct (Ascii.eqb_spec a sep) as [->|Hne].
  - destruct (Split s sep) as [|h t]; [discriminate|].
    change (String.concat (String sep "") ("" :: h :: t))%string
      with (String sep (String.concat (String sep "") (h :: t))).
    rewrite IH. reflexivity.
  - destruct (Split s sep) as [|h t]; [discriminate|].
    destruct t as [|h' t]; rewrite <- IH; reflexivity.
Qed.

Lemma index_Some {A} (l : list A) (i : nat) (x : A) :
  l !! i = Some x -> index l (Z.of_nat i) = Ret x.
Proof.
  intros H. unfold index. destruct (Z.ltb_spec (Z.of_nat i) 0); [lia|].
  rewrite Nat2Z.id, H. reflexivity.
Qed.

Lemma index_last {A} (l : list A) (x : A) :
  index (l ++ [x]) (Z.of_nat (length (l ++ [x])) - 1) = Ret x.
Proof.
  rewrite length_app. simpl.
  replace (Z.of_nat (length l + 1) - 1) with (Z.of_nat (length l)) by lia.
  apply index_Some. rewrite lookup_app_r by lia.
  rewrite Nat.sub_diag. reflexivity.
Qed.

Lemma index_last_total {A} (l : list A) (d : A) :
  l <> [] -> index l (Z.of_nat (length l) - 1) = Ret (List.last l d).
Proof.
  intros Hl. destruct (exists_last Hl) as [l' [x ->]].
  rewrite index_last, last_last. reflexivity.
Qed.

Lemma take_removelast {A} (l : list A) :
  take (Z.to_nat (Z.of_nat (length l) - 1)) l = removelast l.
Proof.
  destruct (decide (l = [])) as [->|Hl]; [reflexivity|].
  destruct (exists_last Hl) as [l' [x ->]].
  rewrite removelast_last, length_app. simpl.
  replace (Z.to_nat (Z.of_nat (length l' + 1) - 1)) with (length l') by lia.
  rewrite take_app_length. reflexivity.
Qed.

(** ** The frame codec *)

Section frame_claims.
Context `{E : Externals}.

(** What [decode] does with the answer to its header read, for any reader. *)
Lemma decode_clean_end {R} `{io.Reader R} (r r' : R) :
  io.Read r 5 = ([], Some EOF, r') -> decode r = (x00, None, None, r').
Proof.
  intros Hr. unfold decode, io.read. rewrite length_replicate, Hr. reflexivity.
Qed.

Lemma decode_header_error {R} `{io.Reader R} (r r' : R) (d : list byte) (e : error) :
  io.Read r 5 = (d, Some e, r') -> e <> EOF \/ d <> [] ->
  decode r = (x00, None, Some e, r').
Proof.
  intros Hr Hne. unfold decode, io.read. rewrite length_replicate, Hr.
  destruct (bool_decide (e = EOF)) eqn:He; [|reflexivity].
  apply bool_decide_eq_true in He. destruct Hne as [Hne|Hne]; [contradiction|].
  destruct d as [|b d]; [contradiction|]. reflexivity.
Qed.

Lemma decode_header_read {R} `{io.Reader R} (r r' : R) (header : list byte) :
  length header = 5%nat -> io.Read r 5 = (header, None, r') ->
  io.read r (replicate 5 x00) = (5, header, None, r').
Proof.
  intros Hl Hr. unfold io.read. rewrite length_replicate, Hr.
  rewrite take_ge by lia. rewrite Hl.
  change (drop 5 (replicate 5 x00)) with (@nil byte).
  rewrite app_nil_r. reflexivity.
Qed.

(** C2. For every compression flag and every payload no longer than the
    configured maximum message size and than the largest [int] of the host,
    [encode] into an empty buffer succeeds, and [decode] on the bytes it
    produced returns the same flag and the same payload bytes with no error,
    leaving nothing unread.  The host is a 32- or 64-bit machine and the
    configured maximum fits the 4-byte length field. *)
Theorem encode_decode_roundtrip (cf : byte) (payload : Bytes) :
  host_word ->
  DefaultMaxMsgSize < 2 ^ 32 ->
  len payload <= DefaultMaxMsgSize ->
  len payload <= maxInt ->
  exists (w : bytes_Buffer) (p : Bytes),
    encode cf payload (NewBuffer []) = (None, w)
    /\ decode w = (cf, p, None, NewBuffer [])
    /\ content p = content payload.
Proof.
  intros Hw H32 Hmax Hint.
  assert (Hlen : len payload = Z.of_nat (length (content payload)))
    by (destruct payload; reflexivity).
  rewrite Hlen in *.
  eexists _, _. split; [apply encode_bytes_Buffer|].
  rewrite Hlen. unfold uint32. rewrite Z.mod_small by lia.
  rewrite app_nil_l.
  rewrite <- (app_nil_r (content payload)) at 2.
  rewrite decode_frame by (auto; lia).
  split; [reflexivity|]. destruct (content payload); reflexivity.
Qed.

(** C6 (the code departs from the claim). A reader that answers the header
    read with fewer than 5 bytes and no error is not reported: [decode] takes
    the missing header bytes as zero and returns a frame with the flag it
    saw, an empty payload and no error.  Shown on a 3-byte [bytes.Buffer]
    and on a reader that delivers a single byte. *)
Theorem decode_short_header_read_is_no_error :
  decode (NewBuffer [x01; x00; x00]) = (x01, None, None, NewBuffer [])
  /\ forall cf : byte,
       decode (Script [([cf], None)]) = (cf, None, None, Script []).
Proof. split; [reflexivity | intros cf; reflexivity]. Qed.

(** C7. When the header read delivers 5 bytes, with [length] the big-endian
    value of bytes 1 to 4: if [length] exceeds the largest [int] of the host,
    [decode] fails with the machine-limit error, whose text holds [length]
    and that limit; otherwise, if [length] exceeds the configured maximum,
    [decode] fails with the configured-limit error, whose text holds
    [length] and the maximum.  In both cases the reader is left as it was
    after the header read, and the two errors differ. *)
Theorem decode_size_exceeded {R} `{io.Reader R} (r r' : R) (header : list byte) :
  host_word ->
  0 <= DefaultMaxMsgSize ->
  length header = 5%nat ->
  io.Read r 5 = (header, None, r') ->
  let cf := nth 0 header x00 in
  let length := BigEndian_Uint32 (drop 1 header) in
  (maxInt < length ->
     decode r
     = (cf, None,
        Some (fmt_Errorf
                ("grpc: received message larger than max length allowed on current machine ("
                   ++ fmt_d length ++ " vs. " ++ fmt_d maxInt ++ ")")%string),
        r'))
  /\ (length <= maxInt -> DefaultMaxMsgSize < length ->
        decode r
        = (cf, None,
           Some (fmt_Errorf
                   ("grpc: received message larger than max ("
                      ++ fmt_d length ++ " vs. " ++ fmt_d DefaultMaxMsgSize ++ ")")%string),
           r'))
  /\ too_large_for_machine length <> too_large length.
Proof.
  intros Hw Hmax Hl Hr cf length.
  pose proof (BigEndian_Uint32_range (drop 1 header)) as Hrange.
  pose proof (maxInt_bounds Hw) as Hb.
  fold length in Hrange.
  assert (Hdec : decode r =
    if length =? 0 then (cf, None, None, r')
    else if int64 length >? int64 maxInt then
      (cf, None, Some (too_large_for_machine length), r')
    else if int length >? DefaultMaxMsgSize then
      (cf, None, Some (too_large length), r')
    else
      let '(_, msg, err, r) :=
        io.read r' (replicate (Z.to_nat (int length)) x00) in
      match err with
      | Some err =>
          (cf, None,
           Some (if bool_decide (err = EOF) then ErrUnexpectedEOF else err), r)
      | None => (cf, Some msg, None, r)
      end).
  { unfold decode. rewrite (decode_header_read r r' header Hl Hr). reflexivity. }
  rewrite Hdec. rewrite !int64_small by lia.
  split; [|split].
  - intros Hbig.
    destruct (Z.eqb_spec length 0) as [|_]; [lia|].
    destruct (Z.gtb_spec length maxInt) as [_|]; [reflexivity | lia].
  - intros Hfit Hbig.
    destruct (Z.eqb_spec length 0) as [|_]; [lia|].
    destruct (Z.gtb_spec length maxInt) as [|_]; [lia|].
    rewrite int_small by (auto; lia).
    destruct (Z.gtb_spec length DefaultMaxMsgSize) as [_|]; [reflexivity | lia].
  - unfold too_large_for_machine, too_large. discriminate.
Qed.

End frame_claims.

(** ** Header translation on the read side *)

Section header_claims.
Context `{E : Externals}.

Lemma Split_not_nil (s : string) (sep : ascii) : Split s sep <> [].
Proof.
  pose proof (Split_length s sep).
  destruct (Split s sep); [discriminate | congruence].
Qed.

Lemma get_lookup (m : Message.t) (k v : string) :
  Message.Header m !! k = Some v -> Message.get m k = v.
Proof. intros Hk. unfold Message.get. rewrite Hk. reflexivity. Qed.

Ltac path_branch Hget :=
  unfold path_result;
  rewrite Hget; cbn [no_leading_slash]; rewrite Ascii.eqb_refl; cbn [negb];
  match goal with
  | |- context [Split ?path "/"] =>
      destruct (Split path "/") as [|? [|? [|? [|? ?]]]];
      cbn [length Nat.eqb negb]
  end;
  [ split; [split; [intros _; cbn; lia | intros _; eauto] | intros ? ? ? ?; discriminate]
  | split; [split; [intros _; cbn; lia | intros _; eauto] | intros ? ? ? ?; discriminate]
  | split; [split; [intros _; cbn; lia | intros _; eauto] | intros ? ? ? ?; discriminate]
  | match goal with
    | |- context [index [?a; ?b; ?c] 1] =>
        change (index [a; b; c] 1) with (Ret b);
        change (index [a; b; c] 2) with (Ret c); cbn [bind];
        rewrite (index_last_total _ EmptyString (Split_not_nil b "."))
    end;
    cbn [bind]; rewrite take_removelast;
    split;
    [ split; [intros (m' & c' & Hret); discriminate | intros Hne; cbn in Hne; lia]
    | intros q0 q1 q2 [= <- <- <-]; eexists _, _;
      split; [reflexivity|]; split; reflexivity ]
  | split; [split; [intros _; cbn; lia | intros _; eauto] | intros ? ? ? ?; discriminate]
  ].

Lemma GrpcGo_ReadHeader_path (c : GrpcGo.grpcCodec) (m : Message.t) (rest : string) :
  Message.Header m !! ":path" = Some (String "/" rest) ->
  path_result (GrpcGo.ReadHeader c m) (String "/" rest).
Proof.
  intros Hp. pose proof (get_lookup m _ _ Hp) as Hget.
  unfold GrpcGo.ReadHeader. path_branch Hget.
Qed.

Lemma Part000_ReadHeader_path (c : Part000.grpcCodec) (m : Message.t) (rest : string) :
  Message.Header m !! ":path" = Some (String "/" rest) ->
  path_result (Part000.ReadHeader c m) (String "/" rest).
Proof.
  intros Hp. pose proof (get_lookup m _ _ Hp) as Hget.
  unfold Part000.ReadHeader. path_branch Hget.
Qed.

(** C4. For a message whose [:path] header starts with ['/'], in both
    revisions: [ReadHeader] returns the error "Unknown request path" exactly
    when the path does not split into three ['/']-separated segments; when
    it does, Endpoint is the last ['.']-separated component of the middle
    segment joined by ['.'] to the third segment, and Target is the other
    components of the middle segment rejoined by ['.'].  The path
    "/pkg.sub.Service/Method" gives Target "pkg.sub" and Endpoint
    "Service.Method". *)
Theorem ReadHeader_path (c1 : GrpcGo.grpcCodec) (c2 : Part000.grpcCodec)
    (m : Message.t) (rest : string) :
  Message.Header m !! ":path" = Some (String "/" rest) ->
  path_result (GrpcGo.ReadHeader c1 m) (String "/" rest)
  /\ path_result (Part000.ReadHeader c2 m) (String "/" rest)
  /\ (rest = "pkg.sub.Service/Method"%string ->
      (exists m' c', GrpcGo.ReadHeader c1 m = Ret (None, m', c')
         /\ Message.Target m' = "pkg.sub"%string
         /\ Message.Endpoint m' = "Service.Method"%string)
      /\ (exists m' c', Part000.ReadHeader c2 m = Ret (None, m', c')
            /\ Message.Target m' = "pkg.sub"%string
            /\ Message.Endpoint m' = "Service.Method"%string)).
Proof.
  intros Hp.
  pose proof (GrpcGo_ReadHeader_path c1 m rest Hp) as [_ H1].
  pose proof (Part000_ReadHeader_path c2 m rest Hp) as [_ H2].
  split; [apply GrpcGo_ReadHeader_path, Hp|].
  split; [apply Part000_ReadHeader_path, Hp|].
  intros ->.
  destruct (H1 EmptyString "pkg.sub.Service"%string "Method"%string eq_refl)
    as (m1 & c1' & Hr1 & He1 & Ht1).
  destruct (H2 EmptyString "pkg.sub.Service"%string "Method"%string eq_refl)
    as (m2 & c2' & Hr2 & He2 & Ht2).
  split; eexists _, _; (split; [eassumption|]); split; assumption.
Qed.

(** The same rule told with concatenation instead of [Split]: for a path
    ["/" ++ pkg ++ "." ++ svc ++ "/" ++ meth] whose parts hold no ['/'] and
    whose [svc] holds no ['.'], Target is [pkg] and Endpoint is
    [svc ++ "." ++ meth]. *)
Lemma append_assoc (s t u : string) : (s ++ t ++ u = (s ++ t) ++ u)%string.
Proof.
  induction s as [|a s IH]; [reflexivity|].
  change (String a (s ++ t ++ u) = String a ((s ++ t) ++ u))%string.
  rewrite IH. reflexivity.
Qed.

Lemma count_byte_app (sep : ascii) (s t : string) :
  count_byte sep (s ++ t)%string = (count_byte sep s + count_byte sep t)%nat.
Proof.
  induction s as [|a s IH]; [reflexivity|].
  change (count_byte sep (String a (s ++ t)%string)
          = (count_byte sep (String a s) + count_byte sep t)%nat).
  cbn [count_byte]. rewrite IH. lia.
Qed.

Lemma Split_path_shape (pkg svc meth : string) :
  count_byte "/" pkg = 0%nat -> count_byte "/" svc = 0%nat ->
  count_byte "/" meth = 0%nat ->
  Split ("/" ++ pkg ++ "." ++ svc ++ "/" ++ meth)%string "/"
  = [EmptyString; (pkg ++ "." ++ svc)%string; meth].
Proof.
  intros Hp Hs Hm.
  change ("/" ++ pkg ++ "." ++ svc ++ "/" ++ meth)%string
    with (String "/" (pkg ++ String "." (svc ++ String "/" meth)))%string.
  cbn [Split]. rewrite Ascii.eqb_refl. f_equal.
  change (String "." (svc ++ String "/" meth))%string
    with (String "." svc ++ String "/" meth)%string.
  rewrite append_assoc, Split_app, (Split_absent meth _ Hm).
  rewrite (Split_absent (pkg ++ String "." svc)%string); [reflexivity|].
  rewrite count_byte_app, Hp. exact Hs.
Qed.

Lemma ReadHeader_path_parts (c1 : GrpcGo.grpcCodec) (c2 : Part000.grpcCodec)
    (m : Message.t) (pkg svc meth : string) :
  count_byte "/" pkg = 0%nat -> count_byte "/" svc = 0%nat ->
  count_byte "/" meth = 0%nat -> count_byte "." svc = 0%nat ->
  Message.Header m !! ":path" = Some ("/" ++ pkg ++ "." ++ svc ++ "/" ++ meth)%string ->
  (exists m' c', GrpcGo.ReadHeader c1 m = Ret (None, m', c')
     /\ Message.Target m' = pkg
     /\ Message.Endpoint m' = (svc ++ "." ++ meth)%string)
  /\ (exists m' c', Part000.ReadHeader c2 m = Ret (None, m', c')
        /\ Message.Target m' = pkg
        /\ Message.Endpoint m' = (svc ++ "." ++ meth)%string).
Proof.
  intros Hp Hs Hm Hd Hpath.
  pose proof (Split_path_shape pkg svc meth Hp Hs Hm) as Hsplit.
  assert (Hsvc : Split (pkg ++ "." ++ svc)%string "." = Split pkg "." ++ [svc]).
  { change (pkg ++ "." ++ svc)%string with (pkg ++ String "." svc)%string.
    rewrite Split_app, (Split_absent svc _ Hd). reflexivity. }
  assert (Hjoin : Join (Split pkg ".") "." = pkg) by apply Join_Split.
  change ("/" ++ pkg ++ "." ++ svc ++ "/" ++ meth)%string
    with (String "/" (pkg ++ "." ++ svc ++ "/" ++ meth))%string in Hpath, Hsplit.
  pose proof (GrpcGo_ReadHeader_path c1 m _ Hpath) as [_ H1].
  pose proof (Part000_ReadHeader_path c2 m _ Hpath) as [_ H2].
  destruct (H1 _ _ _ Hsplit) as (m1 & c1' & Hr1 & He1 & Ht1).
  destruct (H2 _ _ _ Hsplit) as (m2 & c2' & Hr2 & He2 & Ht2).
  rewrite Hsvc, last_last in He1, He2.
  rewrite Hsvc, removelast_last, Hjoin in Ht1, Ht2.
  split; eexists _, _; (split; [eassumption|]); split; assumption.
Qed.

End header_claims.

(** ** Header synthesis and body encoding on the write side *)

Ltac header_lookup :=
  unfold Message.set; cbn [Message.Header];
  repeat first
    [ rewrite lookup_insert_eq
    | rewrite lookup_insert_ne by discriminate ];
  try reflexivity.

Section write_claims.
Context `{E : Externals}.

Lemma Error_headers_EOS (m : Message.t) :
  Message.Error m = "EOS"%string ->
  Error_headers m
    (Message.set "grpc-status" "0"
       (Message.set "Trailer" "grpc-status, grpc-message" m)).
Proof.
  intros He. split; [intros _ | intros Hne; contradiction].
  split; header_lookup.
Qed.

Lemma Error_headers_other (m : Message.t) :
  Message.Error m <> "EOS"%string ->
  Error_headers m
    (Message.set "grpc-status" "13"
       (Message.set "grpc-message" (Message.Error m)
          (Message.set "Trailer" "grpc-status, grpc-message" m))).
Proof.
  intros He. split; [intros Heq; contradiction | intros _].
  split; header_lookup.
Qed.

(** C3. For a message of kind [Error], in both revisions, [Write] returns
    no error whatever the body value is, hands back the output stream as it
    received it and leaves the message body alone; when the error string is
    "EOS" it sets [grpc-status] to "0" (and does not touch [grpc-message]),
    otherwise it sets [grpc-message] to the error string and [grpc-status]
    to "13". *)
Theorem Write_Error_kind {W} `{io.Writer W}
    (c1 : GrpcGo.grpcCodec) (c2 : Part000.grpcCodec) (conn : W) (m : Message.t) :
  Message.Type' m = codec.Error ->
  (exists m',
      (forall v, GrpcGo.Write c1 conn m v = Ret (None, m', GrpcGo.refresh c1 m, conn))
      /\ Message.Body m' = Message.Body m /\ Error_headers m m')
  /\ (exists m',
        (forall v, Part000.Write c2 conn m v = Ret (None, m', Part000.refresh c2 m, conn))
        /\ Message.Body m' = Message.Body m /\ Error_headers m m').
Proof.
  intros Hk.
  split.
  - unfold GrpcGo.Write, GrpcGo.Write_header. rewrite Hk.
    change (Message.Error (Message.set "Trailer" "grpc-status, grpc-message" m))
      with (Message.Error m).
    destruct (String.eqb_spec (Message.Error m) "EOS") as [He|He]; cbn [bind];
      (eexists; split; [intros v; reflexivity | split; [reflexivity|]]).
    + apply Error_headers_EOS, He.
    + apply Error_headers_other, He.
  - unfold Part000.Write, Part000.Write_header. rewrite Hk.
    change (Message.Error (Message.set "Trailer" "grpc-status, grpc-message" m))
      with (Message.Error m).
    destruct (String.eqb_spec (Message.Error m) "EOS") as [He|He]; cbn [bind];
      (eexists; split; [intros v; reflexivity | split; [reflexivity|]]).
    + apply Error_headers_EOS, He.
    + apply Error_headers_other, He.
Qed.

(** C10. For a message of kind [Request] whose Endpoint holds no ['.'], in
    both revisions, [Write] panics with index 1 out of range for a split of
    length 1, whatever the body and the stream are: it returns no error. *)
Theorem Write_Request_without_dot_panics {W} `{io.Writer W}
    (c1 : GrpcGo.grpcCodec) (c2 : Part000.grpcCodec) (conn : W) (m : Message.t)
    (v : value) :
  Message.Type' m = codec.Request ->
  count_byte "." (Message.Endpoint m) = 0%nat ->
  GrpcGo.Write c1 conn m v = Panic (index_out_of_range 1 1)
  /\ Part000.Write c2 conn m v = Panic (index_out_of_range 1 1).
Proof.
  intros Hk Hdot.
  unfold GrpcGo.Write, GrpcGo.Write_header, Part000.Write, Part000.Write_header.
  rewrite Hk, (Split_absent _ _ Hdot). split; reflexivity.
Qed.

Lemma Split_two (s : string) (sep : ascii) :
  count_byte sep s <> 0%nat -> exists p0 p1 t, Split s sep = p0 :: p1 :: t.
Proof.
  intros Hc. pose proof (Split_length s sep) as Hl.
  destruct (Split s sep) as [|p0 [|p1 t]]; simpl in Hl; try lia. eauto.
Qed.

(** With a ['.'] in Endpoint the path is built and [Write] returns. *)
Lemma Write_Request_with_dot_returns {W} `{io.Writer W}
    (c1 : GrpcGo.grpcCodec) (c2 : Part000.grpcCodec) (conn : W) (m : Message.t)
    (v : value) :
  Message.Type' m = codec.Request ->
  count_byte "." (Message.Endpoint m) <> 0%nat ->
  (exists r, GrpcGo.Write c1 conn m v = Ret r)
  /\ (exists r, Part000.Write c2 conn m v = Ret r).
Proof.
  intros Hk Hdot. destruct (Split_two _ _ Hdot) as (p0 & p1 & t & Hs).
  unfold GrpcGo.Write, GrpcGo.Write_header, Part000.Write, Part000.Write_header.
  rewrite Hk, Hs.
  change (index (p0 :: p1 :: t) 0) with (Ret p0).
  change (index (p0 :: p1 :: t) 1) with (Ret p1). cbn [bind].
  split.
  - destruct (GrpcGo.Write_body _ v) as [buf [e|]]; [eauto|].
    destruct (len buf =? 0); [eauto|].
    destruct (encode x00 buf conn). eauto.
  - destruct (Part000.Marshal _ v []) as [buf [e|]]; [eauto|].
    destruct (len buf =? 0); [eauto|].
    destruct (encode x00 buf conn). eauto.
Qed.

(** C8. For a message of kind [Request] or [Response], in both revisions:
    when [Write] gets as far as encoding the body (it does not panic while
    building the path) and the encoding fails with error [e], [Write] returns
    [e], with [grpc-status] set to "8" and [grpc-message] set to the text of
    [e], and hands back the output stream as it received it. *)
Theorem Write_marshal_failure {W} `{io.Writer W}
    (c1 : GrpcGo.grpcCodec) (c2 : Part000.grpcCodec) (conn : W) (m : Message.t)
    (v : value) (e : error) :
  Message.Type' m = codec.Request \/ Message.Type' m = codec.Response ->
  ((exists buf, GrpcGo.Write_body (GrpcGo.refresh c1 m) v = (buf, Some e)) ->
   (forall p, GrpcGo.Write c1 conn m v <> Panic p) ->
   exists m',
     GrpcGo.Write c1 conn m v = Ret (Some e, m', GrpcGo.refresh c1 m, conn)
     /\ failure_headers e m')
  /\ ((exists buf, Part000.Marshal (Part000.refresh c2 m) v [] = (buf, Some e)) ->
      (forall p, Part000.Write c2 conn m v <> Panic p) ->
      exists m',
        Part000.Write c2 conn m v = Ret (Some e, m', Part000.refresh c2 m, conn)
        /\ failure_headers e m').
Proof.
  intros Hk. split.
  - intros [buf Hm] Hnp. revert Hnp. unfold GrpcGo.Write.
    destruct (GrpcGo.Write_header (GrpcGo.refresh c1 m) m) as [[m1|m1]|p] eqn:Hh;
      cbn [bind]; intros Hnp.
    + rewrite Hm. eexists. split; [reflexivity|]. split; header_lookup.
    + exfalso. unfold GrpcGo.Write_header in Hh.
      destruct Hk as [Hk|Hk]; rewrite Hk in Hh.
      * destruct (index _ 0); cbn [bind] in Hh; [|discriminate].
        destruct (index _ 1); cbn [bind] in Hh; discriminate.
      * discriminate.
    + exfalso. apply (Hnp p). reflexivity.
  - intros [buf Hm] Hnp. revert Hnp. unfold Part000.Write.
    destruct (Part000.Write_header (Part000.refresh c2 m) m) as [[m1|m1]|p] eqn:Hh;
      cbn [bind]; intros Hnp.
    + rewrite Hm. eexists. split; [reflexivity|]. split; header_lookup.
    + exfalso. unfold Part000.Write_header in Hh.
      destruct Hk as [Hk|Hk]; rewrite Hk in Hh.
      * destruct (index _ 0); cbn [bind] in Hh; [|discriminate].
        destruct (index _ 1); cbn [bind] in Hh; discriminate.
      * discriminate.
    + exfalso. apply (Hnp p). reflexivity.
Qed.

End write_claims.

(** ** Reading and decoding bodies *)

Section body_claims.
Context `{E : Externals}.

Lemma is_binary_not_json (ct : string) : is_binary ct = true -> is_json ct = false.
Proof.
  unfold is_binary, is_json. intros Hb.
  destruct (String.eqb_spec ct "application/grpc+json") as [->|]; [|reflexivity].
  discriminate.
Qed.


(** [src/grpc.go] tests [d == nil] only: an empty slice that is allocated is
    stored into a frame target, and the call ends with the invalid-message
    error. *)
Lemma GrpcGo_Unmarshal_empty_allocated (c : GrpcGo.grpcCodec) (f : Frame) :
  GrpcGo.Unmarshal c (Some []) (Frame_ptr f)
  = (Frame_ptr {| Data := Some [] |}, Some ErrInvalidMessage).
Proof. reflexivity. Qed.

(** C1 (the code departs from the claim). In [src/unnamed/part_000],
    [ReadBody] names the first result of [decode] [n] and returns when it is
    zero; that result is the compression flag, not a length.  So for a
    non-nil target and a frame whose flag is 0, [ReadBody] returns no error
    and the target untouched, whatever the payload holds. *)
Theorem ReadBody_flag_zero_skips_Unmarshal {R} `{io.Reader R}
    (c : Part000.grpcCodec) (conn conn' : R) (v : value) (buf : Bytes) :
  Part000.is_nil v = false ->
  decode conn = (x00, buf, None, conn') ->
  Part000.ReadBody c conn v = (v, None, conn').
Proof.
  intros Hv Hd. unfold Part000.ReadBody. rewrite Hv, Hd. reflexivity.
Qed.

(** With a non-zero flag the payload does reach [Unmarshal]. *)
Lemma ReadBody_flag_nonzero {R} `{io.Reader R}
    (c : Part000.grpcCodec) (conn conn' : R) (v : value) (cf : byte) (buf : Bytes) :
  Part000.is_nil v = false ->
  cf <> x00 ->
  decode conn = (cf, buf, None, conn') ->
  Part000.ReadBody c conn v = (Part000.Unmarshal c buf v [], conn').
Proof.
  intros Hv Hcf Hd. unfold Part000.ReadBody. rewrite Hv, Hd.
  destruct (Z.eqb_spec (of_uint8 cf) 0) as [H0|_]; [|reflexivity].
  exfalso. apply Hcf. rewrite <- (uint8_of_uint8 cf), H0. reflexivity.
Qed.

(** A frame with a zero-length payload writes nothing and is no error. *)
Lemma ReadBody_empty_payload {R} `{io.Reader R}
    (c : Part000.grpcCodec) (conn conn' : R) (v : value) (cf : byte) (buf : Bytes) :
  len buf = 0 ->
  decode conn = (cf, buf, None, conn') ->
  exists r, Part000.ReadBody c conn v = (v, None, r).
Proof.
  intros Hl Hd. unfold Part000.ReadBody.
  destruct (Part000.is_nil v) eqn:Hv; [eauto|]. rewrite Hd.
  destruct (of_uint8 cf =? 0); [eauto|].
  unfold Part000.Unmarshal. rewrite Hv, Hl. cbn. eauto.
Qed.

(** [src/grpc.go]: the frame case of [ReadBody] stores the payload and then
    leaves the switch, so the call ends with the unknown-content-type
    error. *)
Lemma GrpcGo_ReadBody_Frame {R} `{io.Reader R}
    (c : GrpcGo.grpcCodec) (conn conn' : R) (f : Frame) (cf : byte) (buf : Bytes) :
  decode conn = (cf, buf, None, conn') ->
  GrpcGo.ReadBody c conn (Frame_ptr f)
  = (Frame_ptr {| Data := buf |}, Some ErrUnknownContentType, conn').
Proof. intros Hd. unfold GrpcGo.ReadBody. rewrite Hd. reflexivity. Qed.

(** The order in which [Marshal] of [src/grpc.go] tries its cases: nil, frame,
    newer family, older family, generic value. *)
Lemma GrpcGo_Marshal_order (c : GrpcGo.grpcCodec) (f : Frame) (o : obj) :
  GrpcGo.Marshal c nil_iface = (None, None)
  /\ GrpcGo.Marshal c (Frame_ptr f) = (Data f, None)
  /\ (is_proto_Message o = true ->
        GrpcGo.Marshal c (other o)
        = if is_json (GrpcGo.ContentType c) then protojson_Marshal GrpcGo.JsonpbMarshaler o
          else if is_binary (GrpcGo.ContentType c) then proto_Marshal o
          else (None, Some ErrUnknownContentType))
  /\ (is_proto_Message o = false -> is_oldproto_Message o = true ->
        GrpcGo.Marshal c (other o)
        = if is_json (GrpcGo.ContentType c) then
            (GrpcGo.bytes_of_string (fst (oldjsonpb_MarshalToString GrpcGo.OldJsonpbMarshaler o)),
             snd (oldjsonpb_MarshalToString GrpcGo.OldJsonpbMarshaler o))
          else if is_binary (GrpcGo.ContentType c) then oldproto_Marshal o
          else (None, Some ErrUnknownContentType))
  /\ (is_proto_Message o = false -> is_oldproto_Message o = false ->
        GrpcGo.Marshal c (other o)
        = if is_json (GrpcGo.ContentType c) then json_Marshal (other o)
          else (None, Some ErrUnknownContentType)).
Proof.
  unfold GrpcGo.Marshal. repeat split.
  - intros ->. reflexivity.
  - intros -> ->. destruct (oldjsonpb_MarshalToString _ o). reflexivity.
  - intros -> ->. reflexivity.
Qed.

(** The order in which [Unmarshal] of [src/grpc.go] tries its cases on
    allocated input: nil, frame, older family, newer family, generic value. *)
Lemma GrpcGo_Unmarshal_order (c : GrpcGo.grpcCodec) (d : list byte) (o : obj) :
  GrpcGo.Unmarshal c (Some d) nil_iface = (nil_iface, None)
  /\ (is_oldproto_Message o = true ->
        GrpcGo.Unmarshal c (Some d) (other o)
        = if is_json (GrpcGo.ContentType c) then
            GrpcGo.lift (oldjsonpb_Unmarshal GrpcGo.OldJsonpbUnmarshaler d o)
          else if is_binary (GrpcGo.ContentType c) then
            GrpcGo.lift (oldproto_Unmarshal (Some d) o)
          else (other o, Some ErrInvalidMessage))
  /\ (is_oldproto_Message o = false -> is_proto_Message o = true ->
        GrpcGo.Unmarshal c (Some d) (other o)
        = if is_json (GrpcGo.ContentType c) then
            GrpcGo.lift (protojson_Unmarshal GrpcGo.JsonpbUnmarshaler (Some d) o)
          else if is_binary (GrpcGo.ContentType c) then
            GrpcGo.lift (proto_Unmarshal (Some d) o)
          else (other o, Some ErrInvalidMessage))
  /\ (is_oldproto_Message o = false -> is_proto_Message o = false ->
        GrpcGo.Unmarshal c (Some d) (other o)
        = if is_json (GrpcGo.ContentType c) then json_Unmarshal (Some d) (other o)
          else (other o, Some ErrInvalidMessage)).
Proof.
  unfold GrpcGo.Unmarshal. repeat split.
  - intros ->. reflexivity.
  - intros -> ->. reflexivity.
  - intros -> ->. reflexivity.
Qed.

(** C5 (the code departs from the claim). In [src/grpc.go], for a value
    that satisfies both protocol-buffer capability sets, [Marshal] uses the
    newer family's encoders, and [Unmarshal] uses the older family's
    decoders: its type switch lists [oldproto.Message] before
    [proto.Message]. *)
Theorem both_families_Marshal_newer_Unmarshal_older
    (c : GrpcGo.grpcCodec) (o : obj) (d : list byte) :
  is_proto_Message o = true ->
  is_oldproto_Message o = true ->
  (is_binary (GrpcGo.ContentType c) = true ->
     GrpcGo.Marshal c (other o) = proto_Marshal o
     /\ GrpcGo.Unmarshal c (Some d) (other o)
        = GrpcGo.lift (oldproto_Unmarshal (Some d) o))
  /\ (is_json (GrpcGo.ContentType c) = true ->
        GrpcGo.Marshal c (other o) = protojson_Marshal GrpcGo.JsonpbMarshaler o
        /\ GrpcGo.Unmarshal c (Some d) (other o)
           = GrpcGo.lift (oldjsonpb_Unmarshal GrpcGo.OldJsonpbUnmarshaler d o)).
Proof.
  intros Hn Ho. unfold GrpcGo.Marshal, GrpcGo.Unmarshal. rewrite Hn, Ho.
  split; intros Hct.
  - rewrite (is_binary_not_json _ Hct), Hct. split; reflexivity.
  - rewrite Hct. split; reflexivity.
Qed.

End body_claims.

(** ** The properties at concrete inputs *)

(** Each property that carries a condition is run here on the stand-in
    externals of [Toy], with the condition checked by evaluation. *)

Section instances.
#[local] Existing Instance Toy.externals.

Import Toy.

Lemma ReadBody_flag_zero_witness :
  Part000.is_nil (Frame_ptr {| Data := None |} : value) = false
  /\ decode (NewBuffer [x00; x00; x00; x00; x01; x41])
     = (x00, Some [x41], None, NewBuffer [])
  /\ Part000.ReadBody codec_v2 (NewBuffer [x00; x00; x00; x00; x01; x41])
       (Frame_ptr {| Data := None |})
     = (Frame_ptr {| Data := None |}, None, NewBuffer []).
Proof.
  split; [reflexivity|]. split; [vm_compute; reflexivity|].
  apply (ReadBody_flag_zero_skips_Unmarshal codec_v2 _ _ _ (Some [x41]));
    [reflexivity | vm_compute; reflexivity].
Defined.

Lemma encode_decode_roundtrip_witness :
  exists (w : bytes_Buffer) (p : Bytes),
    encode x01 (Some [x41; x42; x43]) (NewBuffer []) = (None, w)
    /\ decode w = (x01, p, None, NewBuffer [])
    /\ content p = [x41; x42; x43].
Proof.
  apply (encode_decode_roundtrip x01 (Some [x41; x42; x43]));
    [right; reflexivity | reflexivity | vm_compute; discriminate
    | vm_compute; discriminate].
Defined.

Lemma Write_Error_kind_witness :
  (exists m',
      (forall v, GrpcGo.Write codec_v1 (NewBuffer []) (message codec.Error "Foo.Bar" "boom") v
                 = Ret (None, m', GrpcGo.refresh codec_v1 (message codec.Error "Foo.Bar" "boom"),
                        NewBuffer []))
      /\ Message.Body m' = None
      /\ Error_headers (message codec.Error "Foo.Bar" "boom") m')
  /\ (exists m',
        (forall v, Part000.Write codec_v2 (NewBuffer []) (message codec.Error "Foo.Bar" "boom") v
                   = Ret (None, m', Part000.refresh codec_v2 (message codec.Error "Foo.Bar" "boom"),
                          NewBuffer []))
        /\ Message.Body m' = None
        /\ Error_headers (message codec.Error "Foo.Bar" "boom") m').
Proof.
  apply (Write_Error_kind codec_v1 codec_v2 (NewBuffer [])
           (message codec.Error "Foo.Bar" "boom")).
  reflexivity.
Defined.

Lemma ReadHeader_path_witness :
  path_result
    (GrpcGo.ReadHeader codec_v1
       (Message.set ":path" "/pkg.sub.Service/Method" (message codec.Request "" "")))
    "/pkg.sub.Service/Method"
  /\ path_result
       (Part000.ReadHeader codec_v2
          (Message.set ":path" "/pkg.sub.Service/Method" (message codec.Request "" "")))
       "/pkg.sub.Service/Method".
Proof.
  pose proof (ReadHeader_path codec_v1 codec_v2
                (Message.set ":path" "/pkg.sub.Service/Method" (message codec.Request "" ""))
                "pkg.sub.Service/Method" eq_refl) as (H1 & H2 & _).
  exact (conj H1 H2).
Defined.

Lemma both_families_witness :
  GrpcGo.Marshal codec_v1 (other both) = proto_Marshal both
  /\ GrpcGo.Unmarshal codec_v1 (Some [x42]) (other both)
     = GrpcGo.lift (oldproto_Unmarshal (Some [x42]) both).
Proof.
  destruct (both_families_Marshal_newer_Unmarshal_older codec_v1 both [x42]
              eq_refl eq_refl) as [H _].
  apply H. reflexivity.
Defined.

(** On the stand-in encoders the two families give different results, so the
    choice [Unmarshal] makes can be seen from outside. *)
Lemma both_families_Unmarshal_observable :
  GrpcGo.Unmarshal codec_v1 (Some [x42]) (other both)
  <> GrpcGo.lift (proto_Unmarshal (Some [x42]) both).
Proof. vm_compute. discriminate. Qed.

Lemma decode_size_exceeded_witness :
  decode (NewBuffer [x00; x00; x80; x00; x00; x41])
  = (x00, None,
     Some (fmt_Errorf "grpc: received message larger than max (8388608 vs. 4194304)"),
     NewBuffer [x41]).
Proof.
  pose proof (decode_size_exceeded
                (NewBuffer [x00; x00; x80; x00; x00; x41]) (NewBuffer [x41])
                [x00; x00; x80; x00; x00]
                (or_intror eq_refl)) as H.
  destruct H as (_ & H & _); [vm_compute; discriminate | reflexivity | reflexivity |].
  apply H; vm_compute; [discriminate | reflexivity].
Defined.

(** On a 32-bit host a declared length of 2^31 is past the largest [int]. *)
Lemma decode_machine_limit_on_32_bit :
  @decode (Toy.externals_on 32) _ _ (NewBuffer [x00; x80; x00; x00; x00; x41])
  = (x00, None,
     Some (fmt_Errorf
             "grpc: received message larger than max length allowed on current machine (2147483648 vs. 2147483647)"),
     NewBuffer [x41]).
Proof. vm_compute. reflexivity. Qed.

Lemma Write_marshal_failure_witness :
  exists m',
    Part000.Write codec_v2 (NewBuffer []) (message codec.Response "Foo.Bar" "") (other hollow)
    = Ret (Some (foreign "empty value"), m',
           Part000.refresh codec_v2 (message codec.Response "Foo.Bar" ""), NewBuffer [])
    /\ failure_headers (foreign "empty value") m'.
Proof.
  apply (Write_marshal_failure codec_v1 codec_v2 (NewBuffer [])
           (message codec.Response "Foo.Bar" "") (other hollow) (foreign "empty value"));
    [right; reflexivity | exists None; reflexivity | intros p; discriminate].
Defined.

Lemma Write_Request_without_dot_witness :
  GrpcGo.Write codec_v1 (NewBuffer []) (message codec.Request "Foo" "") nil_iface
  = Panic (index_out_of_range 1 1)
  /\ Part000.Write codec_v2 (NewBuffer []) (message codec.Request "Foo" "") nil_iface
     = Panic (index_out_of_range 1 1).
Proof.
  apply (Write_Request_without_dot_panics codec_v1 codec_v2 (NewBuffer [])
           (message codec.Request "Foo" "") nil_iface); reflexivity.
Defined.

End instances.

(** ** More on the frame codec *)

Section frame_more.
Context `{E : Externals}.

Lemma read_length {R} `{io.Reader R} (r r' : R) (p q : list byte) (n : Z) (e : option error) :
  io.read r p = (n, q, e, r') -> length q = length p /\ 0 <= n <= Z.of_nat (length p).
Proof.
  unfold io.read. destruct (io.Read r (length p)) as [[d e0] r0].
  intros [= <- <- <- <-].
  rewrite length_app, length_drop, length_take. lia.
Qed.

(** X1. Whatever the reader does, a result of [decode] never holds both a
    payload and an error, and a payload it returns is never empty, never longer
    than the configured maximum and never longer than the largest [int]. *)
Theorem decode_result_bounds {R} `{io.Reader R} (r r' : R) (cf : byte) (p : Bytes)
    (e : option error) :
  host_word ->
  decode r = (cf, p, e, r') ->
  (e <> None -> p = None)
  /\ (forall msg, p = Some msg ->
        0 < Z.of_nat (length msg) <= DefaultMaxMsgSize
        /\ Z.of_nat (length msg) <= maxInt).
Proof.
  intros Hw. unfold decode.
  destruct (io.read r (replicate 5 x00)) as [[[n header] e0] r0].
  pose proof (BigEndian_Uint32_range (drop 1 header)) as Hr.
  pose proof (maxInt_bounds Hw) as Hb.
  set (declared := BigEndian_Uint32 (drop 1 header)) in *.
  destruct e0 as [e0|].
  { destruct (bool_decide (e0 = EOF) && (n =? 0)); intros [= <- <- <- <-];
      (split; [reflexivity | discriminate]). }
  destruct (Z.eqb_spec declared 0) as [|Hnz].
  { intros [= <- <- <- <-]. split; [reflexivity | discriminate]. }
  rewrite !int64_small by lia.
  destruct (Z.gtb_spec declared maxInt) as [|Hfit].
  { intros [= <- <- <- <-]. split; [reflexivity | discriminate]. }
  rewrite int_small by (auto; lia).
  destruct (Z.gtb_spec declared DefaultMaxMsgSize) as [|Hmax].
  { intros [= <- <- <- <-]. split; [reflexivity | discriminate]. }
  destruct (io.read r0 (replicate (Z.to_nat declared) x00)) as [[[k msg] e1] r1] eqn:Hrd.
  apply read_length in Hrd. rewrite length_replicate in Hrd.
  destruct e1 as [e1|]; intros [= <- <- <- <-].
  - split; [reflexivity | discriminate].
  - split; [congruence|]. intros msg' [= <-]. lia.
Qed.

(** X2. When the header read delivers 5 bytes that declare a length within
    the limits and the payload read answers with an error, [decode] returns the
    flag, no payload and that error, except that [io.EOF] becomes
    [io.ErrUnexpectedEOF]; bytes delivered together with the error are
    dropped. *)
Theorem decode_payload_read_error {R} `{io.Reader R} (r r1 r2 : R)
    (header d : list byte) (e : error) :
  host_word ->
  length header = 5%nat ->
  io.Read r 5 = (header, None, r1) ->
  0 < BigEndian_Uint32 (drop 1 header) <= maxInt ->
  BigEndian_Uint32 (drop 1 header) <= DefaultMaxMsgSize ->
  io.Read r1 (Z.to_nat (BigEndian_Uint32 (drop 1 header))) = (d, Some e, r2) ->
  decode r
  = (nth 0 header x00, None,
     Some (if bool_decide (e = EOF) then ErrUnexpectedEOF else e), r2).
Proof.
  intros Hw Hl Hr Hpos Hmax Hr2.
  pose proof (maxInt_bounds Hw) as Hb.
  unfold decode. rewrite (decode_header_read r r1 header Hl Hr).
  set (declared := BigEndian_Uint32 (drop 1 header)) in *.
  destruct (Z.eqb_spec declared 0) as [|_]; [lia|].
  rewrite !int64_small by lia.
  destruct (Z.gtb_spec declared maxInt) as [|_]; [lia|].
  rewrite int_small by (auto; lia).
  destruct (Z.gtb_spec declared DefaultMaxMsgSize) as [|_]; [lia|].
  unfold io.read. rewrite length_replicate, Hr2. reflexivity.
Qed.

Lemma read_bytes_Buffer_short (avail p : list byte) :
  avail <> [] -> (length avail <= length p)%nat ->
  io.read (NewBuffer avail) p
  = (Z.of_nat (length avail), avail ++ drop (length avail) p, None, NewBuffer []).
Proof.
  intros Hne Hle. unfold io.read, io.Read, bytes_Buffer_Reader. simpl unread.
  destruct avail as [|a t] eqn:Ha; [congruence|]. rewrite <- Ha in *.
  rewrite (take_ge avail) by lia. rewrite (drop_ge avail) by lia.
  rewrite (take_ge avail) by lia. reflexivity.
Qed.

(** X3. On a [bytes.Buffer] that holds a 5-byte header declaring more payload
    bytes than follow it: with no payload byte at all [decode] fails with
    [io.ErrUnexpectedEOF]; with at least one, it returns a payload of the
    declared length, the bytes present followed by zero bytes, and no
    error. *)
Theorem decode_truncated_payload (header avail : list byte) :
  host_word ->
  length header = 5%nat ->
  0 < BigEndian_Uint32 (drop 1 header) <= maxInt ->
  BigEndian_Uint32 (drop 1 header) <= DefaultMaxMsgSize ->
  Z.of_nat (length avail) < BigEndian_Uint32 (drop 1 header) ->
  decode (NewBuffer (header ++ avail))
  = match avail with
    | [] => (nth 0 header x00, None, Some ErrUnexpectedEOF, NewBuffer [])
    | _ =>
        (nth 0 header x00,
         Some (avail ++ replicate (Z.to_nat (BigEndian_Uint32 (drop 1 header))
                                   - length avail) x00),
         None, NewBuffer [])
    end.
Proof.
  intros Hw Hl Hpos Hmax Hshort.
  pose proof (maxInt_bounds Hw) as Hb.
  unfold decode.
  rewrite read_bytes_Buffer;
    [| rewrite length_replicate; congruence | destruct header; [discriminate | discriminate]].
  cbv beta iota.
  set (declared := BigEndian_Uint32 (drop 1 header)) in *.
  destruct (Z.eqb_spec declared 0) as [|_]; [lia|].
  rewrite !int64_small by lia.
  destruct (Z.gtb_spec declared maxInt) as [|_]; [lia|].
  rewrite int_small by (auto; lia).
  destruct (Z.gtb_spec declared DefaultMaxMsgSize) as [|_]; [lia|].
  destruct avail as [|a t] eqn:Ha.
  - unfold io.read, io.Read, bytes_Buffer_Reader. simpl unread.
    rewrite length_replicate.
    destruct (Nat.eqb_spec (Z.to_nat declared) 0) as [|_]; [lia|]. reflexivity.
  - rewrite <- Ha in *.
    rewrite read_bytes_Buffer_short;
      [| subst; discriminate | rewrite length_replicate; lia].
    rewrite drop_replicate. reflexivity.
Qed.

(** X4. Two frames written one after the other by [encode] into an empty
    buffer are returned by two calls of [decode] in the same order, each with
    its flag and payload bytes, and a third call on the drained buffer gives the
    clean end of stream (flag 0, no payload, no error). *)
Theorem decode_two_frames_then_end (cf1 cf2 : byte) (p1 p2 : Bytes) :
  host_word ->
  DefaultMaxMsgSize < 2 ^ 32 ->
  len p1 <= DefaultMaxMsgSize -> len p1 <= maxInt ->
  len p2 <= DefaultMaxMsgSize -> len p2 <= maxInt ->
  exists (w1 w2 w3 : bytes_Buffer) (q1 q2 : Bytes),
    encode cf1 p1 (NewBuffer []) = (None, w1)
    /\ encode cf2 p2 w1 = (None, w2)
    /\ decode w2 = (cf1, q1, None, w3)
    /\ decode w3 = (cf2, q2, None, NewBuffer [])
    /\ decode (NewBuffer []) = (x00, None, None, NewBuffer [])
    /\ content q1 = content p1 /\ content q2 = content p2.
Proof.
  intros Hw H32 Hm1 Hi1 Hm2 Hi2.
  assert (Hl1 : len p1 = Z.of_nat (length (content p1))) by (destruct p1; reflexivity).
  assert (Hl2 : len p2 = Z.of_nat (length (content p2))) by (destruct p2; reflexivity).
  rewrite Hl1, Hl2 in *.
  eexists _, _, _, _, _.
  split; [apply encode_bytes_Buffer|].
  split; [apply encode_bytes_Buffer|].
  rewrite Hl1, Hl2. unfold uint32. rewrite !Z.mod_small by lia.
  rewrite app_nil_l, <- !app_assoc.
  split; [apply decode_frame; auto; lia|].
  split.
  { rewrite <- (app_nil_r (content p2)) at 2.
    apply decode_frame; auto; lia. }
  split; [reflexivity|].
  split; [destruct (content p1) | destruct (content p2)]; reflexivity.
Qed.

End frame_more.

(** ** More on the write side *)

Ltac headers :=
  cbn [Message.Header Message.Target Message.Endpoint Message.Body Message.Type'
       Message.Error Message.set Message.set_Body Message.set_Target Message.set_Endpoint];
  repeat first
    [ rewrite lookup_insert_eq
    | rewrite lookup_insert_ne by discriminate ];
  try reflexivity.

Section write_more.
Context `{E : Externals}.

Lemma append_nil_r (s : string) : (s ++ "")%string = s.
Proof.
  induction s as [|a s IH]; [reflexivity|].
  change (String a (s ++ "")%string = String a s). rewrite IH. reflexivity.
Qed.

Lemma Split_two_components (p0 p1 tail : string) :
  count_byte "." p0 = 0%nat -> count_byte "." p1 = 0%nat ->
  tail = EmptyString \/ (exists t, tail = String "." t) ->
  exists rest, Split (p0 ++ "." ++ p1 ++ tail)%string "." = p0 :: p1 :: rest.
Proof.
  intros H0 H1 Ht.
  change (p0 ++ "." ++ p1 ++ tail)%string with (p0 ++ String "." (p1 ++ tail))%string.
  rewrite Split_app, (Split_absent p0 _ H0).
  destruct Ht as [-> | [t ->]].
  - rewrite append_nil_r, (Split_absent p1 _ H1). eauto.
  - rewrite Split_app, (Split_absent p1 _ H1). eauto.
Qed.

Lemma GrpcGo_Write_Request {W} `{io.Writer W} (c : GrpcGo.grpcCodec) (conn : W)
    (m : Message.t) (v : value) (p0 p1 : string) (rest : list string) :
  Message.Type' m = codec.Request ->
  Split (Message.Endpoint m) "." = p0 :: p1 :: rest ->
  exists e m' w,
    GrpcGo.Write c conn m v = Ret (e, m', GrpcGo.refresh c m, w)
    /\ request_headers m (GrpcGo.ContentType (GrpcGo.refresh c m)) p0 p1 m'.
Proof.
  intros Hk Hs. unfold GrpcGo.Write, GrpcGo.Write_header. rewrite Hk, Hs.
  change (index (p0 :: p1 :: rest) 0) with (Ret p0).
  change (index (p0 :: p1 :: rest) 1) with (Ret p1). cbn [bind].
  destruct (GrpcGo.Write_body _ v) as [buf [e|]];
    [| destruct (len buf =? 0); [| destruct (encode x00 buf conn)]];
    (eexists _, _, _; split; [reflexivity|]);
    unfold request_headers, Sprintf_path; repeat split; headers.
Qed.

Lemma Part000_Write_Request {W} `{io.Writer W} (c : Part000.grpcCodec) (conn : W)
    (m : Message.t) (v : value) (p0 p1 : string) (rest : list string) :
  Message.Type' m = codec.Request ->
  Split (Message.Endpoint m) "." = p0 :: p1 :: rest ->
  exists e m' w,
    Part000.Write c conn m v = Ret (e, m', Part000.refresh c m, w)
    /\ request_headers m (Part000.ContentType (Part000.refresh c m)) p0 p1 m'.
Proof.
  intros Hk Hs. unfold Part000.Write, Part000.Write_header. rewrite Hk, Hs.
  change (index (p0 :: p1 :: rest) 0) with (Ret p0).
  change (index (p0 :: p1 :: rest) 1) with (Ret p1). cbn [bind].
  destruct (Part000.Marshal _ v []) as [buf [e|]];
    [| destruct (len buf =? 0); [| destruct (encode x00 buf conn)]];
    (eexists _, _, _; split; [reflexivity|]);
    unfold request_headers, Sprintf_path; repeat split; headers.
Qed.

(** X8. For a message of kind [Request] whose Endpoint is [p0.p1], or
    [p0.p1.] followed by anything, with no ['.'] inside [p0] and [p1], [Write]
    returns in both revisions and leaves [:method] = POST,
    [:path] = /Target.p0/p1, [:proto] = HTTP/2.0, [te] = trailers,
    [user-agent] = grpc-go/1.0.0, [:authority] = Target and [content-type] =
    the codec's content type after the call; Target and Endpoint are kept.
    Components of Endpoint after the second are not used. *)
Theorem Write_Request_headers {W} `{io.Writer W}
    (c1 : GrpcGo.grpcCodec) (c2 : Part000.grpcCodec) (conn : W) (m : Message.t)
    (v : value) (p0 p1 tail : string) :
  Message.Type' m = codec.Request ->
  count_byte "." p0 = 0%nat -> count_byte "." p1 = 0%nat ->
  tail = EmptyString \/ (exists t, tail = String "." t) ->
  Message.Endpoint m = (p0 ++ "." ++ p1 ++ tail)%string ->
  (exists e m' w,
      GrpcGo.Write c1 conn m v = Ret (e, m', GrpcGo.refresh c1 m, w)
      /\ request_headers m (GrpcGo.ContentType (GrpcGo.refresh c1 m)) p0 p1 m')
  /\ (exists e m' w,
        Part000.Write c2 conn m v = Ret (e, m', Part000.refresh c2 m, w)
        /\ request_headers m (Part000.ContentType (Part000.refresh c2 m)) p0 p1 m').
Proof.
  intros Hk H0 H1 Ht He.
  destruct (Split_two_components p0 p1 tail H0 H1 Ht) as [rest Hs].
  rewrite <- He in Hs.
  split; [eapply GrpcGo_Write_Request | eapply Part000_Write_Request]; eassumption.
Qed.

(** X9. For a message of kind [Request] whose Endpoint is [svc.meth] with no
    ['.'] and no ['/'] in [svc] and [meth] and no ['/'] in Target: running
    [ReadHeader] (with any codec) on the message that [Write] returns gives
    no error and puts back the same Target and Endpoint.  Both revisions. *)
Theorem ReadHeader_inverts_Write_Request {W} `{io.Writer W}
    (c1 d1 : GrpcGo.grpcCodec) (c2 d2 : Part000.grpcCodec) (conn : W) (m : Message.t)
    (v : value) (svc meth : string) :
  Message.Type' m = codec.Request ->
  Message.Endpoint m = (svc ++ "." ++ meth)%string ->
  count_byte "." svc = 0%nat -> count_byte "." meth = 0%nat ->
  count_byte "/" svc = 0%nat -> count_byte "/" meth = 0%nat ->
  count_byte "/" (Message.Target m) = 0%nat ->
  (exists e m' c' w m'' c'',
      GrpcGo.Write c1 conn m v = Ret (e, m', c', w)
      /\ GrpcGo.ReadHeader d1 m' = Ret (None, m'', c'')
      /\ Message.Target m'' = Message.Target m
      /\ Message.Endpoint m'' = Message.Endpoint m)
  /\ (exists e m' c' w m'' c'',
        Part000.Write c2 conn m v = Ret (e, m', c', w)
        /\ Part000.ReadHeader d2 m' = Ret (None, m'', c'')
        /\ Message.Target m'' = Message.Target m
        /\ Message.Endpoint m'' = Message.Endpoint m).
Proof.
  intros Hk He Hds Hdm Hss Hsm Hst.
  destruct (Split_two_components svc meth EmptyString Hds Hdm (or_introl eq_refl))
    as [rest Hs].
  rewrite append_nil_r, <- He in Hs.
  destruct (GrpcGo_Write_Request c1 conn m v svc meth rest Hk Hs)
    as (e1 & m1 & w1 & Hw1 & Hh1).
  destruct (Part000_Write_Request c2 conn m v svc meth rest Hk Hs)
    as (e2 & m2 & w2 & Hw2 & Hh2).
  destruct Hh1 as (_ & Hp1 & _ & _ & _ & _ & _ & _ & _).
  destruct Hh2 as (_ & Hp2 & _ & _ & _ & _ & _ & _ & _).
  destruct (ReadHeader_path_parts d1 d2 m1 (Message.Target m) svc meth Hst Hss Hsm Hds Hp1)
    as [(ma & ca & Hra & Hta & Hea) _].
  destruct (ReadHeader_path_parts d1 d2 m2 (Message.Target m) svc meth Hst Hss Hsm Hds Hp2)
    as [_ (mb & cb & Hrb & Htb & Heb)].
  split.
  - exists e1, m1, (GrpcGo.refresh c1 m), w1, ma, ca. rewrite He. auto.
  - exists e2, m2, (Part000.refresh c2 m), w2, mb, cb. rewrite He. auto.
Qed.

End write_more.

Section write_more2.
Context `{E : Externals}.

(** X10. For a message of kind [Response], in both revisions, [Write] always
    returns (it never panics) and leaves [Trailer] = grpc-status,
    [:status] = 200 and [content-type] = the codec's content type after the
    call; [grpc-status] is "0" whenever encoding the body gave no error, also
    when the stream then refuses the frame. *)
Theorem Write_Response_headers {W} `{io.Writer W}
    (c1 : GrpcGo.grpcCodec) (c2 : Part000.grpcCodec) (conn : W) (m : Message.t)
    (v : value) :
  Message.Type' m = codec.Response ->
  (exists e m' w,
      GrpcGo.Write c1 conn m v = Ret (e, m', GrpcGo.refresh c1 m, w)
      /\ response_headers (GrpcGo.ContentType (GrpcGo.refresh c1 m)) m'
      /\ (snd (GrpcGo.Write_body (GrpcGo.refresh c1 m) v) = None ->
          Message.Header m' !! "grpc-status" = Some "0"%string))
  /\ (exists e m' w,
        Part000.Write c2 conn m v = Ret (e, m', Part000.refresh c2 m, w)
        /\ response_headers (Part000.ContentType (Part000.refresh c2 m)) m'
        /\ (snd (Part000.Marshal (Part000.refresh c2 m) v []) = None ->
            Message.Header m' !! "grpc-status" = Some "0"%string)).
Proof.
  intros Hk. split.
  - unfold GrpcGo.Write, GrpcGo.Write_header. rewrite Hk. cbn [bind].
    destruct (GrpcGo.Write_body _ v) as [buf [e|]];
      [| destruct (len buf =? 0); [| destruct (encode x00 buf conn)]];
      (eexists _, _, _; split; [reflexivity|]);
      (split; [unfold response_headers; repeat split; headers
              | cbn [snd]; intros Hn; try discriminate; headers]).
  - unfold Part000.Write, Part000.Write_header. rewrite Hk. cbn [bind].
    destruct (Part000.Marshal _ v []) as [buf [e|]];
      [| destruct (len buf =? 0); [| destruct (encode x00 buf conn)]];
      (eexists _, _, _; split; [reflexivity|]);
      (split; [unfold response_headers; repeat split; headers
              | cbn [snd]; intros Hn; try discriminate; headers]).
Qed.

(** [Write] on a [Response]: what reaches the stream. *)
Lemma GrpcGo_Write_Response_frame (c : GrpcGo.grpcCodec) (m : Message.t) (v : value)
    (l : list byte) :
  Message.Type' m = codec.Response ->
  GrpcGo.Write_body (GrpcGo.refresh c m) v = (Some l, None) ->
  l <> [] ->
  exists m',
    GrpcGo.Write c (NewBuffer []) m v
    = Ret (None, m', GrpcGo.refresh c m,
           NewBuffer ((x00 :: BigEndian_PutUint32 (replicate 4 x00)
                                (uint32 (Z.of_nat (length l)))) ++ l))
    /\ Message.Body m' = Message.Body m.
Proof.
  intros Hk Hm Hl. unfold GrpcGo.Write, GrpcGo.Write_header. rewrite Hk. cbn [bind].
  rewrite Hm. cbn [len].
  destruct (Z.eqb_spec (Z.of_nat (length l)) 0) as [Hz|_].
  { destruct l; [congruence | simpl in Hz; lia]. }
  rewrite encode_bytes_Buffer. eexists. split; [reflexivity|]. reflexivity.
Qed.

Lemma Part000_Write_Response_frame (c : Part000.grpcCodec) (m : Message.t) (v : value)
    (l : list byte) :
  Message.Type' m = codec.Response ->
  Part000.Marshal (Part000.refresh c m) v [] = (Some l, None) ->
  l <> [] ->
  exists m',
    Part000.Write c (NewBuffer []) m v
    = Ret (None, m', Part000.refresh c m,
           NewBuffer ((x00 :: BigEndian_PutUint32 (replicate 4 x00)
                                (uint32 (Z.of_nat (length l)))) ++ l))
    /\ Message.Body m' = Some l.
Proof.
  intros Hk Hm Hl. unfold Part000.Write, Part000.Write_header. rewrite Hk. cbn [bind].
  rewrite Hm. cbn [len].
  destruct (Z.eqb_spec (Z.of_nat (length l)) 0) as [Hz|_].
  { destruct l; [congruence | simpl in Hz; lia]. }
  rewrite encode_bytes_Buffer. eexists. split; [reflexivity|]. reflexivity.
Qed.

Lemma decode_written_frame (l : list byte) :
  host_word -> DefaultMaxMsgSize < 2 ^ 32 ->
  Z.of_nat (length l) <= DefaultMaxMsgSize -> Z.of_nat (length l) <= maxInt ->
  l <> [] ->
  decode (NewBuffer ((x00 :: BigEndian_PutUint32 (replicate 4 x00)
                               (uint32 (Z.of_nat (length l)))) ++ l))
  = (x00, Some l, None, NewBuffer []).
Proof.
  intros Hw H32 Hm Hi Hl. unfold uint32. rewrite Z.mod_small by lia.
  rewrite <- (app_nil_r l) at 2. rewrite decode_frame by (auto; lia).
  destruct l; [congruence | reflexivity].
Qed.

(** X5. For a message of kind [Response] whose body encodes without error to
    the non-empty bytes [l], within the size limits: [Write] into an empty
    buffer returns no error, and [decode] on that buffer gives flag 0, payload
    [l], no error and nothing left over.  [src/unnamed/part_000] also stores
    [l] in the message body; [src/grpc.go] leaves the body as it was. *)
Theorem Write_output_is_one_frame (c1 : GrpcGo.grpcCodec) (c2 : Part000.grpcCodec)
    (m : Message.t) (v : value) (l : list byte) :
  host_word -> DefaultMaxMsgSize < 2 ^ 32 ->
  Z.of_nat (length l) <= DefaultMaxMsgSize -> Z.of_nat (length l) <= maxInt ->
  l <> [] ->
  Message.Type' m = codec.Response ->
  (GrpcGo.Write_body (GrpcGo.refresh c1 m) v = (Some l, None) ->
   exists m' w,
     GrpcGo.Write c1 (NewBuffer []) m v = Ret (None, m', GrpcGo.refresh c1 m, w)
     /\ decode w = (x00, Some l, None, NewBuffer [])
     /\ Message.Body m' = Message.Body m)
  /\ (Part000.Marshal (Part000.refresh c2 m) v [] = (Some l, None) ->
      exists m' w,
        Part000.Write c2 (NewBuffer []) m v = Ret (None, m', Part000.refresh c2 m, w)
        /\ decode w = (x00, Some l, None, NewBuffer [])
        /\ Message.Body m' = Some l).
Proof.
  intros Hw H32 Hm Hi Hl Hk. split; intros Hb.
  - destruct (GrpcGo_Write_Response_frame c1 m v l Hk Hb Hl) as (m' & Hwr & Hbody).
    eexists _, _. split; [exact Hwr|]. split; [|exact Hbody].
    apply decode_written_frame; assumption.
  - destruct (Part000_Write_Response_frame c2 m v l Hk Hb Hl) as (m' & Hwr & Hbody).
    eexists _, _. split; [exact Hwr|]. split; [|exact Hbody].
    apply decode_written_frame; assumption.
Qed.

(** X7. In [src/unnamed/part_000], [ReadBody] run on the bytes that [Write]
    produced for a [Response] with a non-empty encoded body returns no error
    and the target exactly as it was, for every target. *)
Theorem Part000_ReadBody_drops_what_Write_wrote (c d : Part000.grpcCodec)
    (m : Message.t) (v t : value) (l : list byte) :
  host_word -> DefaultMaxMsgSize < 2 ^ 32 ->
  Z.of_nat (length l) <= DefaultMaxMsgSize -> Z.of_nat (length l) <= maxInt ->
  l <> [] ->
  Message.Type' m = codec.Response ->
  Part000.Marshal (Part000.refresh c m) v [] = (Some l, None) ->
  exists m' w,
    Part000.Write c (NewBuffer []) m v = Ret (None, m', Part000.refresh c m, w)
    /\ Part000.ReadBody d w t = (t, None, if Part000.is_nil t then w else NewBuffer []).
Proof.
  intros Hw H32 Hm Hi Hl Hk Hb.
  destruct (Part000_Write_Response_frame c m v l Hk Hb Hl) as (m' & Hwr & _).
  eexists _, _. split; [exact Hwr|].
  unfold Part000.ReadBody. destruct (Part000.is_nil t); [reflexivity|].
  rewrite decode_written_frame by assumption. reflexivity.
Qed.

(** X6. In [src/grpc.go], [ReadBody] run on the bytes that [Write] produced
    for a [Response] whose body encoded to [l]: a frame target receives [l] and
    the call ends with the unknown-content-type error; a target of the newer
    family only, under a binary content type, is handed [l] through
    [proto.Unmarshal]. *)
Theorem GrpcGo_ReadBody_gets_what_Write_wrote (c d : GrpcGo.grpcCodec)
    (m : Message.t) (v : value) (t : obj) (f : Frame) (l : list byte) :
  host_word -> DefaultMaxMsgSize < 2 ^ 32 ->
  Z.of_nat (length l) <= DefaultMaxMsgSize -> Z.of_nat (length l) <= maxInt ->
  l <> [] ->
  Message.Type' m = codec.Response ->
  GrpcGo.Write_body (GrpcGo.refresh c m) v = (Some l, None) ->
  exists m' w,
    GrpcGo.Write c (NewBuffer []) m v = Ret (None, m', GrpcGo.refresh c m, w)
    /\ GrpcGo.ReadBody d w (Frame_ptr f)
       = (Frame_ptr {| Data := Some l |}, Some ErrUnknownContentType, NewBuffer [])
    /\ (is_oldproto_Message t = false -> is_proto_Message t = true ->
        is_binary (GrpcGo.ContentType d) = true ->
        GrpcGo.ReadBody d w (other t)
        = (GrpcGo.lift (proto_Unmarshal (Some l) t), NewBuffer [])).
Proof.
  intros Hw H32 Hm Hi Hl Hk Hb.
  destruct (GrpcGo_Write_Response_frame c m v l Hk Hb Hl) as (m' & Hwr & _).
  eexists _, _. split; [exact Hwr|].
  unfold GrpcGo.ReadBody. rewrite decode_written_frame by assumption.
  split; [reflexivity|].
  intros Ho Hn Hct. rewrite Ho, Hn, Hct.
  destruct (String.eqb_spec (GrpcGo.ContentType d) "application/grpc+json") as [Hj|Hj].
  - unfold is_binary in Hct. rewrite Hj in Hct. discriminate.
  - unfold is_json. apply String.eqb_neq in Hj. rewrite Hj. reflexivity.
Qed.

End write_more2.

(** ** More on the read side and on content dispatch *)

Section read_more.
Context `{E : Externals}.

Lemma GrpcGo_ReadHeader_returns (c : GrpcGo.grpcCodec) (m : Message.t) :
  exists e m',
    GrpcGo.ReadHeader c m = Ret (e, m', GrpcGo.refresh c m)
    /\ same_payload m m' /\ (e <> None -> m' = m).
Proof.
  unfold GrpcGo.ReadHeader.
  destruct (no_leading_slash (Message.get m ":path")).
  { eexists _, _. split; [reflexivity|]. split; [repeat split | congruence]. }
  destruct (Split (Message.get m ":path") "/") as [|p0 [|p1 [|p2 [|p3 t]]]];
    cbn [length Nat.eqb negb].
  1,2,3,5: eexists _, _; split; [reflexivity|]; split; [repeat split | reflexivity].
  change (index [p0; p1; p2] 1) with (Ret p1).
  change (index [p0; p1; p2] 2) with (Ret p2). cbn [bind].
  rewrite (index_last_total _ EmptyString (Split_not_nil p1 ".")). cbn [bind].
  eexists _, _. split; [reflexivity|]. split; [repeat split | congruence].
Qed.

Lemma Part000_ReadHeader_returns (c : Part000.grpcCodec) (m : Message.t) :
  exists e m',
    Part000.ReadHeader c m = Ret (e, m', Part000.refresh c m)
    /\ same_payload m m' /\ (e <> None -> m' = m).
Proof.
  unfold Part000.ReadHeader.
  destruct (no_leading_slash (Message.get m ":path")).
  { eexists _, _. split; [reflexivity|]. split; [repeat split | congruence]. }
  destruct (Split (Message.get m ":path") "/") as [|p0 [|p1 [|p2 [|p3 t]]]];
    cbn [length Nat.eqb negb].
  1,2,3,5: eexists _, _; split; [reflexivity|]; split; [repeat split | reflexivity].
  change (index [p0; p1; p2] 1) with (Ret p1).
  change (index [p0; p1; p2] 2) with (Ret p2). cbn [bind].
  rewrite (index_last_total _ EmptyString (Split_not_nil p1 ".")). cbn [bind].
  eexists _, _. split; [reflexivity|]. split; [repeat split | congruence].
Qed.

(** X13. In both revisions [ReadHeader] returns for every message (no index
    is ever out of range), hands back the codec with the refreshed content
    type, never changes headers, kind, body or error string, and when it
    returns an error the message is unchanged altogether. *)
Theorem ReadHeader_never_panics_and_keeps_the_rest
    (c1 : GrpcGo.grpcCodec) (c2 : Part000.grpcCodec) (m : Message.t) :
  (exists e m',
      GrpcGo.ReadHeader c1 m = Ret (e, m', GrpcGo.refresh c1 m)
      /\ same_payload m m' /\ (e <> None -> m' = m))
  /\ (exists e m',
        Part000.ReadHeader c2 m = Ret (e, m', Part000.refresh c2 m)
        /\ same_payload m m' /\ (e <> None -> m' = m)).
Proof. split; [apply GrpcGo_ReadHeader_returns | apply Part000_ReadHeader_returns]. Qed.

(** X14. When the [:path] header is absent, empty or does not start with
    ['/'], [ReadHeader] returns no error and takes Target and Endpoint from
    the two metadata headers, an absent header giving the empty string. *)
Theorem ReadHeader_without_path (c1 : GrpcGo.grpcCodec) (c2 : Part000.grpcCodec)
    (m : Message.t) :
  no_leading_slash (Message.get m ":path") = true ->
  (exists m',
      GrpcGo.ReadHeader c1 m = Ret (None, m', GrpcGo.refresh c1 m)
      /\ Message.Target m' = default EmptyString (Message.Header m !! "Micro-Service")
      /\ Message.Endpoint m' = default EmptyString (Message.Header m !! "Micro-Endpoint"))
  /\ (exists m',
        Part000.ReadHeader c2 m = Ret (None, m', Part000.refresh c2 m)
        /\ Message.Target m' = default EmptyString (Message.Header m !! HeaderService)
        /\ Message.Endpoint m' = default EmptyString (Message.Header m !! HeaderEndpoint)).
Proof.
  intros Hp. unfold GrpcGo.ReadHeader, Part000.ReadHeader. rewrite Hp.
  split; eexists; (split; [reflexivity|]); split; reflexivity.
Qed.

Lemma refresh_header_GrpcGo (c : GrpcGo.grpcCodec) (m : Message.t) (ct : string) :
  Message.Header m !! "content-type" = Some ct -> ct <> EmptyString ->
  GrpcGo.refresh c m = {| GrpcGo.ContentType := ct |}.
Proof.
  intros Hh Hne. unfold GrpcGo.refresh. rewrite (get_lookup m _ _ Hh).
  destruct ct; [congruence | reflexivity].
Qed.

Lemma refresh_header_Part000 (c : Part000.grpcCodec) (m : Message.t) (ct : string) :
  Message.Header m !! "content-type" = Some ct -> ct <> EmptyString ->
  Part000.refresh c m = {| Part000.opts := Part000.opts c; Part000.ContentType := ct |}.
Proof.
  intros Hh Hne. unfold Part000.refresh. rewrite (get_lookup m _ _ Hh).
  destruct ct; [congruence | reflexivity].
Qed.

Lemma refresh_absent_GrpcGo (c : GrpcGo.grpcCodec) (m : Message.t) :
  Message.Header m !! "content-type" = None -> GrpcGo.refresh c m = c.
Proof. intros Hh. unfold GrpcGo.refresh, Message.get. rewrite Hh. reflexivity. Qed.

Lemma refresh_absent_Part000 (c : Part000.grpcCodec) (m : Message.t) :
  Message.Header m !! "content-type" = None -> Part000.refresh c m = c.
Proof. intros Hh. unfold Part000.refresh, Message.get. rewrite Hh. reflexivity. Qed.

(** X12. A content type read by [ReadHeader] from one message stays in the
    codec, also when [ReadHeader] ends with an error: a later [Write] of a
    [Response] that carries no [content-type] header puts that content type
    into the header.  Both revisions. *)
Theorem content_type_carries_over {W} `{io.Writer W}
    (c1 : GrpcGo.grpcCodec) (c2 : Part000.grpcCodec) (conn : W)
    (m_in m_out : Message.t) (v : value) (ct : string) :
  Message.Header m_in !! "content-type" = Some ct ->
  ct <> EmptyString ->
  Message.Header m_out !! "content-type" = None ->
  Message.Type' m_out = codec.Response ->
  (exists e1 m1 c' e2 m2 w,
      GrpcGo.ReadHeader c1 m_in = Ret (e1, m1, c')
      /\ GrpcGo.Write c' conn m_out v = Ret (e2, m2, c', w)
      /\ GrpcGo.ContentType c' = ct
      /\ Message.Header m2 !! "content-type" = Some ct)
  /\ (exists e1 m1 c' e2 m2 w,
        Part000.ReadHeader c2 m_in = Ret (e1, m1, c')
        /\ Part000.Write c' conn m_out v = Ret (e2, m2, c', w)
        /\ Part000.ContentType c' = ct
        /\ Message.Header m2 !! "content-type" = Some ct).
Proof.
  intros Hin Hne Hout Hk. split.
  - destruct (GrpcGo_ReadHeader_returns c1 m_in) as (e1 & m1 & Hr & _).
    rewrite (refresh_header_GrpcGo c1 m_in ct Hin Hne) in Hr.
    exists e1, m1, {| GrpcGo.ContentType := ct |}.
    unfold GrpcGo.Write, GrpcGo.Write_header.
    rewrite (refresh_absent_GrpcGo _ m_out Hout), Hk. cbn [bind].
    destruct (GrpcGo.Write_body _ v) as [buf [e|]];
      [| destruct (len buf =? 0); [| destruct (encode x00 buf conn)]];
      (eexists _, _, _; split; [exact Hr|]; split; [reflexivity|];
       split; [reflexivity | headers]).
  - destruct (Part000_ReadHeader_returns c2 m_in) as (e1 & m1 & Hr & _).
    rewrite (refresh_header_Part000 c2 m_in ct Hin Hne) in Hr.
    exists e1, m1, {| Part000.opts := Part000.opts c2; Part000.ContentType := ct |}.
    unfold Part000.Write, Part000.Write_header.
    rewrite (refresh_absent_Part000 _ m_out Hout), Hk. cbn [bind].
    destruct (Part000.Marshal _ v []) as [buf [e|]];
      [| destruct (len buf =? 0); [| destruct (encode x00 buf conn)]];
      (eexists _, _, _; split; [exact Hr|]; split; [reflexivity|];
       split; [reflexivity | headers]).
Qed.

(** X11. [Write] of a [Response] with a nil body: [src/unnamed/part_000]
    returns no error, writes nothing, keeps the body and leaves [grpc-status]
    "0"; [src/grpc.go], unless the content type is the JSON one, returns the
    unknown-content-type error with [grpc-status] "8" and writes nothing. *)
Theorem Write_nil_body {W} `{io.Writer W}
    (c1 : GrpcGo.grpcCodec) (c2 : Part000.grpcCodec) (conn : W) (m : Message.t) :
  Message.Type' m = codec.Response ->
  is_json (GrpcGo.ContentType (GrpcGo.refresh c1 m)) = false ->
  (exists m',
      GrpcGo.Write c1 conn m nil_iface
      = Ret (Some ErrUnknownContentType, m', GrpcGo.refresh c1 m, conn)
      /\ failure_headers ErrUnknownContentType m')
  /\ (exists m',
        Part000.Write c2 conn m nil_iface = Ret (None, m', Part000.refresh c2 m, conn)
        /\ Message.Header m' !! "grpc-status" = Some "0"%string
        /\ Message.Body m' = Message.Body m).
Proof.
  intros Hk Hj. split.
  - unfold GrpcGo.Write, GrpcGo.Write_header, GrpcGo.Write_body. rewrite Hk, Hj.
    cbn [bind]. eexists. split; [reflexivity|]. split; headers.
  - unfold Part000.Write, Part000.Write_header. rewrite Hk. cbn [bind].
    eexists. split; [reflexivity|]. split; headers.
Qed.

(** X15. In [src/grpc.go] the switch inside [Write] encodes every non-nil
    body exactly as [Marshal] does. *)
Theorem GrpcGo_Write_encodes_as_Marshal (c : GrpcGo.grpcCodec) (b : value) :
  b <> nil_iface -> GrpcGo.Write_body c b = GrpcGo.Marshal c b.
Proof. intros Hb. destruct b; [congruence | reflexivity | reflexivity]. Qed.

(** X16. In [src/grpc.go], for a frame with a non-empty payload and a target
    that is not a frame: under the JSON content type, or under a binary one
    when the target is a protocol-buffer message of either family, [ReadBody]
    gives exactly what [Unmarshal] gives on the payload. *)
Theorem GrpcGo_ReadBody_decodes_as_Unmarshal {R} `{io.Reader R}
    (c : GrpcGo.grpcCodec) (conn conn' : R) (cf : byte) (d : list byte) (o : obj) :
  decode conn = (cf, Some d, None, conn') ->
  is_json (GrpcGo.ContentType c) = true
  \/ (is_binary (GrpcGo.ContentType c) = true
      /\ (is_proto_Message o = true \/ is_oldproto_Message o = true)) ->
  GrpcGo.ReadBody c conn (other o) = (GrpcGo.Unmarshal c (Some d) (other o), conn').
Proof.
  intros Hd Hc. unfold GrpcGo.ReadBody, GrpcGo.Unmarshal. rewrite Hd.
  destruct Hc as [Hj | [Hb Hp]].
  - rewrite Hj. destruct (is_oldproto_Message o), (is_proto_Message o); reflexivity.
  - rewrite Hb. destruct (is_json _).
    + destruct (is_oldproto_Message o), (is_proto_Message o); reflexivity.
    + destruct (is_oldproto_Message o), (is_proto_Message o);
        try reflexivity. destruct Hp; discriminate.
Qed.

(** X17. In [src/unnamed/part_000], when the flatten lookup finds no field in
    a frame: [Marshal] of a frame returns its bytes under every content type,
    and [Unmarshal] of those bytes (when there is at least one) into any other
    frame makes it equal to the first, with no error. *)
Theorem Part000_frame_passes_through (c d : Part000.grpcCodec)
    (f g : Frame) (os os' : list Part000.Option) :
  StructFieldByTag (Frame_ptr f) (Part000.TagName (Part000.apply_opts c os))
    Part000.flattenTag = None ->
  StructFieldByTag (Frame_ptr g) (Part000.TagName (Part000.apply_opts d os'))
    Part000.flattenTag = None ->
  0 < len (Data f) ->
  Part000.Marshal c (Frame_ptr f) os = (Data f, None)
  /\ Part000.Unmarshal d (fst (Part000.Marshal c (Frame_ptr f) os)) (Frame_ptr g) os'
     = (Frame_ptr f, None).
Proof.
  intros Hf Hg Hl.
  assert (Hm : Part000.Marshal c (Frame_ptr f) os = (Data f, None)).
  { unfold Part000.Marshal. cbn [Part000.is_nil]. cbv zeta. rewrite Hf. reflexivity. }
  split; [exact Hm|]. rewrite Hm. cbn [fst].
  unfold Part000.Unmarshal. cbn [Part000.is_nil orb].
  destruct (Z.eqb_spec (len (Data f)) 0) as [|_]; [lia|].
  cbv zeta. rewrite Hg. destruct f. reflexivity.
Qed.

(** X18. In [src/unnamed/part_000] the options stored in the context never
    change a result: [Marshal] and [Unmarshal], called without extra options,
    return the same for any two contexts, since the JSON content type goes to
    [encoding/json] before the protojson branch can be reached. *)
Theorem Part000_context_options_unused (tag : string) (ctx ctx' : option Part000.context)
    (ct : string) (d : Bytes) (v : value) :
  Part000.Marshal
    {| Part000.opts := {| Part000.TagName := tag; Part000.Context := ctx |};
       Part000.ContentType := ct |} v []
  = Part000.Marshal
      {| Part000.opts := {| Part000.TagName := tag; Part000.Context := ctx' |};
         Part000.ContentType := ct |} v []
  /\ Part000.Unmarshal
       {| Part000.opts := {| Part000.TagName := tag; Part000.Context := ctx |};
          Part000.ContentType := ct |} d v []
     = Part000.Unmarshal
         {| Part000.opts := {| Part000.TagName := tag; Part000.Context := ctx' |};
            Part000.ContentType := ct |} d v [].
Proof.
  unfold Part000.Marshal, Part000.Unmarshal, Part000.apply_opts.
  cbn [fold_left Part000.opts Part000.TagName Part000.Context Part000.ContentType].
  split.
  - destruct (Part000.is_nil v); [reflexivity|].
    destruct (StructFieldByTag v tag Part000.flattenTag) as [[| |o]|];
      try reflexivity;
      destruct v as [| |o']; try reflexivity;
      destruct (is_json ct) eqn:Hj; try reflexivity;
      try (destruct (is_proto_Message o); reflexivity);
      try (destruct (is_proto_Message o'); reflexivity).
  - destruct (Part000.is_nil v || (len d =? 0)); [reflexivity|].
    destruct (StructFieldByTag v tag Part000.flattenTag) as [[| |o]|];
      try reflexivity;
      destruct v as [| |o']; try reflexivity;
      destruct (is_json ct) eqn:Hj; try reflexivity;
      try (destruct (is_proto_Message o); reflexivity);
      try (destruct (is_proto_Message o'); reflexivity).
Qed.

(** X19. In [src/unnamed/part_000], outside the JSON content type and for a
    value the flatten lookup leaves alone: a value that is no protocol-buffer
    message gives the invalid-message error from [Marshal] and [Unmarshal]; a
    protocol-buffer message under an unrecognized content type gives the
    unknown-content-type error from [Marshal] and the invalid-message error
    from [Unmarshal]; under a binary content type both go to [proto].
    [Unmarshal] leaves the target alone on these errors. *)
Theorem Part000_Marshal_error_classes (c : Part000.grpcCodec) (o : obj)
    (d : Bytes) (os : list Part000.Option) :
  StructFieldByTag (other o) (Part000.TagName (Part000.apply_opts c os))
    Part000.flattenTag = None ->
  is_json (Part000.ContentType c) = false ->
  0 < len d ->
  (is_proto_Message o = false ->
     Part000.Marshal c (other o) os = (None, Some ErrInvalidMessage)
     /\ Part000.Unmarshal c d (other o) os = (other o, Some ErrInvalidMessage))
  /\ (is_proto_Message o = true -> is_binary (Part000.ContentType c) = false ->
        Part000.Marshal c (other o) os = (None, Some ErrUnknownContentType)
        /\ Part000.Unmarshal c d (other o) os = (other o, Some ErrInvalidMessage))
  /\ (is_proto_Message o = true -> is_binary (Part000.ContentType c) = true ->
        Part000.Marshal c (other o) os = proto_Marshal o
        /\ Part000.Unmarshal c d (other o) os
           = (other (fst (proto_Unmarshal d o)), snd (proto_Unmarshal d o))).
Proof.
  intros Hf Hj Hl.
  unfold Part000.Marshal, Part000.Unmarshal. cbn [Part000.is_nil orb]. cbv zeta.
  destruct (Z.eqb_spec (len d) 0) as [|_]; [lia|].
  rewrite Hf, Hj.
  split; [|split].
  - intros ->. split; reflexivity.
  - intros -> ->. split; reflexivity.
  - intros -> ->. split; [reflexivity|]. destruct (proto_Unmarshal d o). reflexivity.
Qed.

(** X20. A codec fresh from [NewCodec], given a message without
    [content-type] header, encodes a protocol-buffer message with
    [proto.Marshal] in both revisions. *)
Theorem fresh_codec_is_binary (m : Message.t) (o : obj)
    (NewOptions : list Part000.Option -> Part000.Options) (os : list Part000.Option) :
  Message.Header m !! "content-type" = None ->
  is_proto_Message o = true ->
  StructFieldByTag (other o) (Part000.TagName (NewOptions os)) Part000.flattenTag = None ->
  GrpcGo.Write_body (GrpcGo.refresh GrpcGo.NewCodec m) (other o) = proto_Marshal o
  /\ Part000.Marshal (Part000.refresh (Part000.NewCodec NewOptions os) m) (other o) []
     = proto_Marshal o.
Proof.
  intros Hh Hp Hf.
  rewrite refresh_absent_GrpcGo, refresh_absent_Part000 by assumption.
  unfold GrpcGo.Write_body, Part000.Marshal, Part000.NewCodec, GrpcGo.NewCodec,
    Part000.apply_opts.
  cbn [Part000.is_nil fold_left Part000.opts Part000.ContentType GrpcGo.ContentType].
  cbv zeta. rewrite Hf, Hp. split; reflexivity.
Qed.

End read_more.

(** ** The further properties at concrete inputs *)

Section more_instances.
#[local] Existing Instance Toy.externals.

Import Toy.

Lemma decode_result_bounds_witness :
  0 < Z.of_nat (length [x41; x42; x43]) <= DefaultMaxMsgSize
  /\ Z.of_nat (length [x41; x42; x43]) <= maxInt.
Proof.
  destruct (decode_result_bounds
              (NewBuffer [x01; x00; x00; x00; x03; x41; x42; x43]) (NewBuffer [])
              x01 (Some [x41; x42; x43]) None)
    as [_ Hb]; [right; reflexivity | vm_compute; reflexivity |].
  apply Hb. reflexivity.
Defined.

Lemma decode_payload_read_error_witness :
  decode (Script [([x00; x00; x00; x00; x02], None); ([x41], Some EOF)])
  = (x00, None, Some ErrUnexpectedEOF, Script []).
Proof.
  apply (decode_payload_read_error
           (Script [([x00; x00; x00; x00; x02], None); ([x41], Some EOF)])
           (Script [([x41], Some EOF)]) (Script [])
           [x00; x00; x00; x00; x02] [x41] EOF);
    [right; reflexivity | reflexivity | reflexivity
    | vm_compute; split; [reflexivity | discriminate]
    | vm_compute; discriminate | reflexivity].
Defined.

Lemma decode_truncated_payload_witness :
  decode (NewBuffer ([x00; x00; x00; x00; x03] ++ [x41]))
  = (x00, Some [x41; x00; x00], None, NewBuffer []).
Proof.
  apply (decode_truncated_payload [x00; x00; x00; x00; x03] [x41]);
    [right; reflexivity | reflexivity
    | vm_compute; split; [reflexivity | discriminate]
    | vm_compute; discriminate | vm_compute; reflexivity].
Defined.

Lemma decode_two_frames_then_end_witness :
  exists (w1 w2 w3 : bytes_Buffer) (q1 q2 : Bytes),
    encode x00 (Some [x41]) (NewBuffer []) = (None, w1)
    /\ encode x01 None w1 = (None, w2)
    /\ decode w2 = (x00, q1, None, w3)
    /\ decode w3 = (x01, q2, None, NewBuffer [])
    /\ decode (NewBuffer []) = (x00, None, None, NewBuffer [])
    /\ content q1 = [x41] /\ content q2 = [].
Proof.
  apply (decode_two_frames_then_end x00 x01 (Some [x41]) None);
    [right; reflexivity | reflexivity | vm_compute; discriminate
    | vm_compute; discriminate | vm_compute; discriminate | vm_compute; discriminate].
Defined.

Lemma Write_output_is_one_frame_witness :
  exists m' w,
    Part000.Write codec_v2 (NewBuffer []) (message codec.Response "Foo.Bar" "")
      (Frame_ptr {| Data := Some [x41] |})
    = Ret (None, m', Part000.refresh codec_v2 (message codec.Response "Foo.Bar" ""), w)
    /\ decode w = (x00, Some [x41], None, NewBuffer [])
    /\ Message.Body m' = Some [x41].
Proof.
  destruct (Write_output_is_one_frame codec_v1 codec_v2
              (message codec.Response "Foo.Bar" "")
              (Frame_ptr {| Data := Some [x41] |}) [x41]) as [_ Hp];
    [right; reflexivity | reflexivity | vm_compute; discriminate
    | vm_compute; discriminate | discriminate | reflexivity |].
  apply Hp. reflexivity.
Defined.

Lemma GrpcGo_ReadBody_gets_what_Write_wrote_witness :
  exists m' w,
    GrpcGo.Write codec_v1 (NewBuffer []) (message codec.Response "Foo.Bar" "")
      (Frame_ptr {| Data := Some [x41] |})
    = Ret (None, m', GrpcGo.refresh codec_v1 (message codec.Response "Foo.Bar" ""), w)
    /\ GrpcGo.ReadBody codec_v1 w (Frame_ptr {| Data := None |})
       = (Frame_ptr {| Data := Some [x41] |}, Some ErrUnknownContentType, NewBuffer []).
Proof.
  destruct (GrpcGo_ReadBody_gets_what_Write_wrote codec_v1 codec_v1
              (message codec.Response "Foo.Bar" "")
              (Frame_ptr {| Data := Some [x41] |}) hollow {| Data := None |} [x41])
    as (m' & w & Hw & Hf & _);
    [right; reflexivity | reflexivity | vm_compute; discriminate
    | vm_compute; discriminate | discriminate | reflexivity | reflexivity |].
  exists m', w. split; assumption.
Defined.

Lemma Part000_ReadBody_drops_what_Write_wrote_witness :
  exists m' w,
    Part000.Write codec_v2 (NewBuffer []) (message codec.Response "Foo.Bar" "")
      (Frame_ptr {| Data := Some [x41] |})
    = Ret (None, m', Part000.refresh codec_v2 (message codec.Response "Foo.Bar" ""), w)
    /\ Part000.ReadBody codec_v2 w (Frame_ptr {| Data := None |})
       = (Frame_ptr {| Data := None |}, None, NewBuffer []).
Proof.
  apply (Part000_ReadBody_drops_what_Write_wrote codec_v2 codec_v2
           (message codec.Response "Foo.Bar" "")
           (Frame_ptr {| Data := Some [x41] |}) (Frame_ptr {| Data := None |}) [x41]);
    [right; reflexivity | reflexivity | vm_compute; discriminate
    | vm_compute; discriminate | discriminate | reflexivity | reflexivity].
Defined.

Lemma Write_Request_headers_witness :
  exists e m' w,
    Part000.Write codec_v2 (NewBuffer []) (message codec.Request "Foo.Bar" "") nil_iface
    = Ret (e, m', Part000.refresh codec_v2 (message codec.Request "Foo.Bar" ""), w)
    /\ request_headers (message codec.Request "Foo.Bar" "")
         "application/grpc+proto" "Foo" "Bar" m'.
Proof.
  destruct (Write_Request_headers codec_v1 codec_v2 (NewBuffer [])
              (message codec.Request "Foo.Bar" "") nil_iface "Foo" "Bar" ""
              eq_refl eq_refl eq_refl (or_introl eq_refl) eq_refl) as [_ Hp].
  exact Hp.
Defined.

Lemma ReadHeader_inverts_Write_Request_witness :
  exists e m' c' w m'' c'',
    Part000.Write codec_v2 (NewBuffer []) (message codec.Request "Foo.Bar" "") nil_iface
    = Ret (e, m', c', w)
    /\ Part000.ReadHeader codec_v2 m' = Ret (None, m'', c'')
    /\ Message.Target m'' = "a.b"%string
    /\ Message.Endpoint m'' = "Foo.Bar"%string.
Proof.
  destruct (ReadHeader_inverts_Write_Request codec_v1 codec_v1 codec_v2 codec_v2
              (NewBuffer []) (message codec.Request "Foo.Bar" "") nil_iface "Foo" "Bar"
              eq_refl eq_refl eq_refl eq_refl eq_refl eq_refl eq_refl) as [_ Hp].
  exact Hp.
Defined.

Lemma Write_Response_headers_witness :
  exists e m' w,
    GrpcGo.Write codec_v1 (NewBuffer []) (message codec.Response "Foo.Bar" "") (other both)
    = Ret (e, m', GrpcGo.refresh codec_v1 (message codec.Response "Foo.Bar" ""), w)
    /\ response_headers "application/grpc+proto" m'
    /\ Message.Header m' !! "grpc-status" = Some "0"%string.
Proof.
  destruct (Write_Response_headers codec_v1 codec_v2 (NewBuffer [])
              (message codec.Response "Foo.Bar" "") (other both) eq_refl)
    as [(e & m' & w & Hw & Hh & Hs) _].
  exists e, m', w. split; [exact Hw|]. split; [exact Hh|]. apply Hs. reflexivity.
Defined.

Lemma Write_nil_body_witness :
  exists m',
    Part000.Write codec_v2 (NewBuffer []) (message codec.Response "Foo.Bar" "") nil_iface
    = Ret (None, m', Part000.refresh codec_v2 (message codec.Response "Foo.Bar" ""),
           NewBuffer [])
    /\ Message.Header m' !! "grpc-status" = Some "0"%string
    /\ Message.Body m' = None.
Proof.
  destruct (Write_nil_body codec_v1 codec_v2 (NewBuffer [])
              (message codec.Response "Foo.Bar" "") eq_refl eq_refl) as [_ Hp].
  exact Hp.
Defined.

Lemma content_type_carries_over_witness :
  exists e1 m1 c' e2 m2 w,
    GrpcGo.ReadHeader codec_v1
      (Message.set "content-type" "application/grpc+json" (message codec.Request "" ""))
    = Ret (e1, m1, c')
    /\ GrpcGo.Write c' (NewBuffer []) (message codec.Response "" "") nil_iface
       = Ret (e2, m2, c', w)
    /\ GrpcGo.ContentType c' = "application/grpc+json"%string
    /\ Message.Header m2 !! "content-type" = Some "application/grpc+json"%string.
Proof.
  destruct (content_type_carries_over codec_v1 codec_v2 (NewBuffer [])
              (Message.set "content-type" "application/grpc+json"
                 (message codec.Request "" ""))
              (message codec.Response "" "") nil_iface "application/grpc+json"
              eq_refl) as [Hg _]; [discriminate | reflexivity | reflexivity |].
  exact Hg.
Defined.

Lemma ReadHeader_without_path_witness :
  exists m',
    GrpcGo.ReadHeader codec_v1
      (Message.set "Micro-Service" "svc" (message codec.Request "" ""))
    = Ret (None, m',
           GrpcGo.refresh codec_v1
             (Message.set "Micro-Service" "svc" (message codec.Request "" "")))
    /\ Message.Target m' = "svc"%string
    /\ Message.Endpoint m' = EmptyString.
Proof.
  destruct (ReadHeader_without_path codec_v1 codec_v2
              (Message.set "Micro-Service" "svc" (message codec.Request "" ""))
              eq_refl) as [Hg _].
  exact Hg.
Defined.

Lemma GrpcGo_Write_encodes_as_Marshal_witness :
  GrpcGo.Write_body codec_v1 (other both) = GrpcGo.Marshal codec_v1 (other both).
Proof.
  apply (GrpcGo_Write_encodes_as_Marshal codec_v1 (other both)). discriminate.
Defined.

Lemma GrpcGo_ReadBody_decodes_as_Unmarshal_witness :
  GrpcGo.ReadBody codec_v1 (NewBuffer [x00; x00; x00; x00; x01; x41]) (other both)
  = (GrpcGo.Unmarshal codec_v1 (Some [x41]) (other both), NewBuffer []).
Proof.
  apply (GrpcGo_ReadBody_decodes_as_Unmarshal codec_v1
           (NewBuffer [x00; x00; x00; x00; x01; x41]) (NewBuffer []) x00 [x41] both);
    [vm_compute; reflexivity | right; split; [reflexivity | left; reflexivity]].
Defined.

Lemma Part000_frame_passes_through_witness :
  Part000.Marshal codec_v2 (Frame_ptr {| Data := Some [x41] |} : value) []
  = (Some [x41], None)
  /\ Part000.Unmarshal codec_v2
       (fst (Part000.Marshal codec_v2 (Frame_ptr {| Data := Some [x41] |} : value) []))
       (Frame_ptr {| Data := None |}) []
     = (Frame_ptr {| Data := Some [x41] |}, None).
Proof.
  apply (Part000_frame_passes_through codec_v2 codec_v2
           {| Data := Some [x41] |} {| Data := None |} [] []);
    [reflexivity | reflexivity | reflexivity].
Defined.

Lemma Part000_Marshal_error_classes_witness :
  Part000.Marshal codec_v2 (other hollow) [] = proto_Marshal hollow
  /\ Part000.Unmarshal codec_v2 (Some [x41]) (other hollow) []
     = (other (fst (proto_Unmarshal (Some [x41]) hollow)),
        snd (proto_Unmarshal (Some [x41]) hollow)).
Proof.
  destruct (Part000_Marshal_error_classes codec_v2 hollow (Some [x41]) []
              eq_refl eq_refl eq_refl) as (_ & _ & Hb).
  apply Hb; reflexivity.
Defined.

Lemma fresh_codec_is_binary_witness :
  GrpcGo.Write_body
    (GrpcGo.refresh GrpcGo.NewCodec (message codec.Response "" "")) (other both)
  = proto_Marshal both
  /\ Part000.Marshal
       (Part000.refresh
          (Part000.NewCodec (fun _ => Part000.opts codec_v2) [])
          (message codec.Response "" ""))
       (other both) []
     = proto_Marshal both.
Proof.
  apply (fresh_codec_is_binary (message codec.Response "" "") both
           (fun _ => Part000.opts codec_v2) []); reflexivity.
Defined.

End more_instances.
